(** * zephSynth: the rotary knob and the synth controller of [src/App.js]

    A shallow embedding of the React component file [src/App.js] and the
    properties its specification states about it.

    Numbers.  A JavaScript [Number] is an IEEE-754 binary64 value, and the
    knob arithmetic rounds after every operation.  Two models are kept.

    - The component model ([CustomKnob], the store, the handlers) carries
      numbers as exact rationals ([Q], compared with [==]): every finite
      double is a rational, and [+], [-], [*], [/], [Math.max], [Math.min],
      [<], [>] are carried out without rounding.  It is used for what
      rounding does not change: which handler runs, which actions and host
      calls an event produces, and the range a value lies in (both ends of
      a knob range are doubles, and rounding to nearest is monotone, so a
      rational in [[min, max]] stays there when rounded).

    - Module [IEEE] repeats the numeric functions of the knob, operator for
      operator, on Rocq's primitive binary64 floats.  Every statement about
      the exact value of [valueToAngle], [angleToValue] or a drag is made
      there.

    React.  A handler created by [useCallback] closes over the [state] of the
    render that created it.  [dispatch] does not change that [state]: it
    queues an action, and the queued actions are folded through [reducer]
    once the handler has returned.  Calls into the Web Audio host, in
    contrast, take effect at once.  The embedding keeps the two apart: a
    handler runs in the monad [Eff] over a [World] (the host and the queue of
    dispatched actions) and reads a fixed [State] snapshot. *)

From Stdlib Require Import QArith Qminmax Qabs Qround Lqa Arith List String Bool Lia.
From Stdlib Require Import Floats.
From Stdlib Require Uint63.
Import ListNotations.

Local Open Scope Q_scope.

(** [x < y] on numbers, as a boolean. *)
Definition Qltb (x y : Q) : bool := negb (Qle_bool y x).

(** The value of [Math.PI]: the double [0x1.921fb54442d18p+1], which is
    884279719003555 / 2^48. *)
Definition Math_PI : Q := 884279719003555 # 281474976710656.

(* ================================================================== *)
(** ** [CustomKnob] (App.js, lines 40-156) *)
(* ================================================================== *)

Module CustomKnob.

(** The four [useRef] cells of a knob.  [knobRef] records whether the
    [<g>] element is attached ([knobRef.current] is not null). *)
Record Refs : Type := mkRefs {
  knobRef : bool;
  isDraggingRef : bool;
  startAngleRef : Q;
  startValueRef : Q
}.

Definition initialRefs : Refs :=
  {| knobRef := false; isDraggingRef := false;
     startAngleRef := 0; startValueRef := 0 |}.

(** Lines 83-84: the two range tests applied to the raw angular delta. *)
Definition normalizeAngleDiff (angleDiff : Q) : Q :=
  let angleDiff := if Qltb 180 angleDiff then angleDiff - 360 else angleDiff in
  let angleDiff := if Qltb angleDiff (-180) then angleDiff + 360 else angleDiff in
  angleDiff.

Section Closures.

(** The props [min] and [max] the closures capture. *)
Variables min max : Q.

(** Lines 46-48, without rounding ([IEEE.valueToAngle] has the rounding). *)
Definition valueToAngle (val : Q) : Q :=
  ((val - min) / (max - min)) * 270 - 135.

(** Lines 50-53, without rounding ([IEEE.angleToValue] has the rounding). *)
Definition angleToValue (angle : Q) : Q :=
  let clampedAngle := Qmax (-135) (Qmin 135 angle) in
  min + ((clampedAngle + 135) / 270) * (max - min).

(** Lines 61-71.  [pointerAngle] is the value of
    [Math.atan2(e.clientY - knobCenter.y, e.clientX - knobCenter.x)];
    [value] is the prop the handler captured.  With a null [knobRef] the
    call [getBoundingClientRect] throws before any ref is written. *)
Definition handleMouseDown (value pointerAngle : Q) (r : Refs) : Refs :=
  if knobRef r then
    {| knobRef := knobRef r;
       isDraggingRef := true;
       startAngleRef := pointerAngle;
       startValueRef := value |}
  else r.

(** Lines 73-91.  The result is [None] when the handler returns at its
    guard, and otherwise the pair of the angle passed to [rotateKnob] and
    the value passed to [onChange], both without rounding
    ([IEEE.handleMouseMove] has the rounding). *)
Definition handleMouseMove (pointerAngle : Q) (r : Refs) : option (Q * Q) :=
  if negb (isDraggingRef r) || negb (knobRef r) then None
  else
    let currentAngle := pointerAngle in
    let angleDiff := (currentAngle - startAngleRef r) * (180 / Math_PI) in
    let angleDiff := normalizeAngleDiff angleDiff in
    let newAngle := valueToAngle (startValueRef r) + angleDiff in
    let newValue := angleToValue newAngle in
    Some (newAngle, newValue).

End Closures.

(** Lines 93-95. *)
Definition handleMouseUp (r : Refs) : Refs :=
  {| knobRef := knobRef r;
     isDraggingRef := false;
     startAngleRef := startAngleRef r;
     startValueRef := startValueRef r |}.

(** *** The listener effect (lines 97-113)

    [document] is modelled as the list of its registered listeners.  A
    listener is identified by the run of the effect that created its closure:
    the two arrow functions of one run share the run's number. *)

Inductive DomEvent : Type := mousemove | mouseup.

Definition DomEvent_eqb (a b : DomEvent) : bool :=
  match a, b with
  | mousemove, mousemove | mouseup, mouseup => true
  | _, _ => false
  end.

Definition Listener : Type := (DomEvent * nat)%type.

Definition Listener_eqb (a b : Listener) : bool :=
  DomEvent_eqb (fst a) (fst b) && Nat.eqb (snd a) (snd b).

(** [addEventListener] ignores a listener that is already registered. *)
Definition addEventListener (l : Listener) (doc : list Listener) : list Listener :=
  if existsb (Listener_eqb l) doc then doc else doc ++ [l].

Definition removeEventListener (l : Listener) (doc : list Listener) : list Listener :=
  filter (fun x => negb (Listener_eqb l x)) doc.

(** One mounted (or not yet mounted, or unmounted) knob together with the
    document it registers on.  [effectRun] is the run of the effect whose
    cleanup is pending; [emitted] collects the values handed to [onChange],
    most recent first. *)
Record Knob : Type := mkKnob {
  refs : Refs;
  effectRun : option nat;
  nextRun : nat;
  document : list Listener;
  emitted : list Q
}.

Definition unmounted : Knob :=
  {| refs := initialRefs; effectRun := None; nextRun := 0%nat;
     document := []; emitted := [] |}.

(** The body of the effect (lines 98-107) for run [n]. *)
Definition effectBody (n : nat) (doc : list Listener) : list Listener :=
  addEventListener (mouseup, n) (addEventListener (mousemove, n) doc).

(** The cleanup the effect returns (lines 109-112) for run [n]. *)
Definition effectCleanup (n : nat) (doc : list Listener) : list Listener :=
  removeEventListener (mouseup, n) (removeEventListener (mousemove, n) doc).

Definition withKnobRef (b : bool) (r : Refs) : Refs :=
  {| knobRef := b; isDraggingRef := isDraggingRef r;
     startAngleRef := startAngleRef r; startValueRef := startValueRef r |}.

(** What can happen to a knob.  [Render true] is a render in which
    [handleMouseMove] or [handleMouseUp] is a new closure, so that the effect
    is cleaned up and run again; [Render false] leaves the effect alone. *)
Inductive Step : Type :=
| Mount
| Render (handlersChanged : bool)
| Unmount
| SvgMouseDown (value pointerAngle : Q)
| DocumentMouseMove (pointerAngle : Q)
| DocumentMouseUp.

Definition step (min max : Q) (e : Step) (k : Knob) : Knob :=
  match e with
  | Mount =>
      match effectRun k with
      | Some _ => k
      | None =>
          {| refs := withKnobRef true (refs k);
             effectRun := Some (nextRun k);
             nextRun := S (nextRun k);
             document := effectBody (nextRun k) (document k);
             emitted := emitted k |}
      end
  | Render handlersChanged =>
      match effectRun k with
      | Some n =>
          if handlersChanged then
            {| refs := refs k;
               effectRun := Some (nextRun k);
               nextRun := S (nextRun k);
               document := effectBody (nextRun k) (effectCleanup n (document k));
               emitted := emitted k |}
          else k
      | None => k
      end
  | Unmount =>
      match effectRun k with
      | Some n =>
          {| refs := withKnobRef false (refs k);
             effectRun := None;
             nextRun := nextRun k;
             document := effectCleanup n (document k);
             emitted := emitted k |}
      | None => k
      end
  | SvgMouseDown value pointerAngle =>
      match effectRun k with
      | Some _ =>
          {| refs := handleMouseDown value pointerAngle (refs k);
             effectRun := effectRun k; nextRun := nextRun k;
             document := document k; emitted := emitted k |}
      | None => k
      end
  | DocumentMouseMove pointerAngle =>
      (* the event reaches the knob only through a registered listener *)
      if existsb (fun l => DomEvent_eqb mousemove (fst l)) (document k) then
        match handleMouseMove min max pointerAngle (refs k) with
        | Some (_, newValue) =>
            {| refs := refs k; effectRun := effectRun k; nextRun := nextRun k;
               document := document k; emitted := newValue :: emitted k |}
        | None => k
        end
      else k
  | DocumentMouseUp =>
      if existsb (fun l => DomEvent_eqb mouseup (fst l)) (document k) then
        {| refs := handleMouseUp (refs k);
           effectRun := effectRun k; nextRun := nextRun k;
           document := document k; emitted := emitted k |}
      else k
  end.

Inductive reachable (min max : Q) : Knob -> Prop :=
| reachable_unmounted : reachable min max unmounted
| reachable_step : forall e k,
    reachable min max k -> reachable min max (step min max e k).

End CustomKnob.

(* ================================================================== *)
(** ** The store: [initialState] and [reducer] (lines 3-38) *)
(* ================================================================== *)

Inductive Waveform : Type := sine | square | sawtooth | triangle.

Definition Waveform_eqb (a b : Waveform) : bool :=
  match a, b with
  | sine, sine | square, square | sawtooth, sawtooth | triangle, triangle => true
  | _, _ => false
  end.

(** A host object (an [AudioContext] or an audio node) is known to the
    program only by its identity. *)
Definition Handle : Type := nat.

Record State : Type := mkState {
  audioContext : option Handle;
  oscillator : option Handle;
  gainNode : option Handle;
  filterNode : option Handle;
  isPlaying : bool;
  frequency : Q;
  filterFrequency : Q;
  waveform : Waveform;
  error : option string
}.

Definition initialState : State :=
  {| audioContext := None;
     oscillator := None;
     gainNode := None;
     filterNode := None;
     isPlaying := false;
     frequency := 440;
     filterFrequency := 1000;
     waveform := sine;
     error := None |}.

(** An action is its [type] with its [payload]; a payload has the type of
    the field it is stored in. *)
Inductive Action : Type :=
| SET_AUDIO_CONTEXT (payload : option Handle)
| SET_OSCILLATOR (payload : option Handle)
| SET_GAIN_NODE (payload : option Handle)
| SET_FILTER_NODE (payload : option Handle)
| SET_PLAYING (payload : bool)
| SET_FREQUENCY (payload : Q)
| SET_FILTER_FREQUENCY (payload : Q)
| SET_WAVEFORM (payload : Waveform)
| SET_ERROR (payload : option string).

Definition reducer (state : State) (action : Action) : State :=
  match action with
  | SET_AUDIO_CONTEXT payload =>
      mkState payload (oscillator state) (gainNode state) (filterNode state)
        (isPlaying state) (frequency state) (filterFrequency state)
        (waveform state) (error state)
  | SET_OSCILLATOR payload =>
      mkState (audioContext state) payload (gainNode state) (filterNode state)
        (isPlaying state) (frequency state) (filterFrequency state)
        (waveform state) (error state)
  | SET_GAIN_NODE payload =>
      mkState (audioContext state) (oscillator state) payload (filterNode state)
        (isPlaying state) (frequency state) (filterFrequency state)
        (waveform state) (error state)
  | SET_FILTER_NODE payload =>
      mkState (audioContext state) (oscillator state) (gainNode state) payload
        (isPlaying state) (frequency state) (filterFrequency state)
        (waveform state) (error state)
  | SET_PLAYING payload =>
      mkState (audioContext state) (oscillator state) (gainNode state)
        (filterNode state) payload (frequency state) (filterFrequency state)
        (waveform state) (error state)
  | SET_FREQUENCY payload =>
      mkState (audioContext state) (oscillator state) (gainNode state)
        (filterNode state) (isPlaying state) payload (filterFrequency state)
        (waveform state) (error state)
  | SET_FILTER_FREQUENCY payload =>
      mkState (audioContext state) (oscillator state) (gainNode state)
        (filterNode state) (isPlaying state) (frequency state) payload
        (waveform state) (error state)
  | SET_WAVEFORM payload =>
      mkState (audioContext state) (oscillator state) (gainNode state)
        (filterNode state) (isPlaying state) (frequency state)
        (filterFrequency state) payload (error state)
  | SET_ERROR payload =>
      mkState (audioContext state) (oscillator state) (gainNode state)
        (filterNode state) (isPlaying state) (frequency state)
        (filterFrequency state) (waveform state) payload
  end.

(* ================================================================== *)
(** ** The Web Audio host *)
(* ================================================================== *)

(** The three [AudioParam]s the program writes. *)
Inductive AudioParam : Type :=
| oscillator_frequency (osc : Handle)
| gain_gain (gain : Handle)
| filter_frequency (filter : Handle).

Inductive NodeKind : Type := OscillatorNode | GainNode | BiquadFilterNode.

(** The calls the program makes into the host, as the host sees them. *)
Inductive HostCall : Type :=
| new_AudioContext (context : Handle)
| createNode (kind : NodeKind) (context node : Handle)
| set_oscillator_type (osc : Handle) (w : Waveform)
| set_filter_type_lowpass (filter : Handle)
| setValueAtTime (param : AudioParam) (value startTime : Q)
| setTargetAtTime (param : AudioParam) (target startTime timeConstant : Q)
| connect (source destination : Handle)
| connect_destination (source context : Handle)
| start (osc : Handle)
| resume (context : Handle).

(** The host: the next unused identity, the clock read as [currentTime],
    whether the [AudioContext] constructor throws (and with which
    [message]), and the contexts whose [state] is ['suspended'].  Of the
    calls into the host only the constructor can throw; the node factories
    and the parameter writes of a constructed context succeed. *)
Record Host : Type := mkHost {
  nextHandle : nat;
  currentTime : Q;
  unavailable : option string;
  suspended : list Handle
}.

Definition freshHost (u : option string) : Host :=
  {| nextHandle := 0%nat; currentTime := 0; unavailable := u;
     suspended := [] |}.

(* ================================================================== *)
(** ** Handlers as effectful computations *)
(* ================================================================== *)

(** What a running handler acts on: the host, the actions it has handed to
    [dispatch] and the calls it has made into the host, both oldest first. *)
Record World : Type := mkWorld {
  world_host : Host;
  dispatched : list Action;
  called : list HostCall
}.

(** A computation either returns ([inr]) or throws an [Error] whose
    [message] is carried by [inl]; what it did before throwing stays done. *)
Definition Eff (A : Type) : Type := World -> World * (string + A).

Definition ret {A} (x : A) : Eff A := fun w => (w, inr x).

Definition bind {A B} (m : Eff A) (k : A -> Eff B) : Eff B :=
  fun w =>
    match m w with
    | (w', inr x) => k x w'
    | (w', inl msg) => (w', inl msg)
    end.

Definition throw {A} (msg : string) : Eff A := fun w => (w, inl msg).

(** [try { body } catch (error) { handler(error.message) }] *)
Definition try_catch (body : Eff unit) (handler : string -> Eff unit) : Eff unit :=
  fun w =>
    match body w with
    | (w', inr x) => (w', inr x)
    | (w', inl msg) => handler msg w'
    end.

Declare Scope eff_scope.
Delimit Scope eff_scope with eff.
Notation "x <- m ;; k" := (bind m (fun x => k))
  (at level 61, m at next level, right associativity) : eff_scope.
Notation "m ;; k" := (bind m (fun _ => k))
  (at level 61, right associativity) : eff_scope.
Local Open Scope eff_scope.

Definition dispatch (a : Action) : Eff unit :=
  fun w => (mkWorld (world_host w) (dispatched w ++ [a]) (called w), inr tt).

Definition call (c : HostCall) : Eff unit :=
  fun w => (mkWorld (world_host w) (dispatched w) (called w ++ [c]), inr tt).

(** A new host object: the next identity is taken. *)
Definition allocate : Eff Handle :=
  fun w =>
    let h := world_host w in
    (mkWorld (mkHost (S (nextHandle h)) (currentTime h) (unavailable h)
                (suspended h))
       (dispatched w) (called w), inr (nextHandle h)).

Definition read_currentTime : Eff Q :=
  fun w => (w, inr (currentTime (world_host w))).

(** [new (window.AudioContext || window.webkitAudioContext)()] *)
Definition construct_AudioContext : Eff Handle :=
  fun w =>
    match unavailable (world_host w) with
    | Some msg => (w, inl msg)
    | None => (context <- allocate ;;
               call (new_AudioContext context) ;;
               ret context) w
    end.

Definition create (kind : NodeKind) (context : Handle) : Eff Handle :=
  node <- allocate ;;
  call (createNode kind context node) ;;
  ret node.

(** [context.state === 'suspended'] *)
Definition is_suspended (context : Handle) : Eff bool :=
  fun w => (w, inr (existsb (Nat.eqb context) (suspended (world_host w)))).

(** [context.resume()]: the call returns a promise, which the program
    drops; the [state] of the context changes later, when the host gets to
    it (the event [HostResume] below), not during the handler. *)
Definition do_resume (context : Handle) : Eff unit :=
  call (resume context).

(** Reading a property of [state.gainNode]: a [TypeError] when it is null. *)
Definition property_of (field : option Handle) (name : string) : Eff Handle :=
  match field with
  | Some h => ret h
  | None =>
      throw ("Cannot read properties of null (reading '" ++ name ++ "')")%string
  end.

(* ================================================================== *)
(** ** [WebSynth] (lines 159-353) *)
(* ================================================================== *)

(** Lines 162-191.  [state] is the state the closure captured.  The
    dependency list of this [useCallback] names [state.waveform],
    [state.frequency] and [state.filterFrequency] but not
    [state.audioContext], so the closure in use can be older than the
    current render (see [commit]). *)
Definition setupAudio (state : State) : Eff unit :=
  match audioContext state with
  | Some _ => ret tt
  | None =>
      try_catch
        (context <- construct_AudioContext ;;
         dispatch (SET_AUDIO_CONTEXT (Some context)) ;;
         osc <- create OscillatorNode context ;;
         gain <- create GainNode context ;;
         filter <- create BiquadFilterNode context ;;
         call (set_oscillator_type osc (waveform state)) ;;
         t <- read_currentTime ;;
         call (setValueAtTime (oscillator_frequency osc) (frequency state) t) ;;
         t <- read_currentTime ;;
         call (setValueAtTime (gain_gain gain) 0 t) ;;
         call (set_filter_type_lowpass filter) ;;
         t <- read_currentTime ;;
         call (setValueAtTime (filter_frequency filter) (filterFrequency state) t) ;;
         call (connect osc filter) ;;
         call (connect filter gain) ;;
         call (connect_destination gain context) ;;
         dispatch (SET_OSCILLATOR (Some osc)) ;;
         dispatch (SET_GAIN_NODE (Some gain)) ;;
         dispatch (SET_FILTER_NODE (Some filter)) ;;
         call (start osc))
        (fun message =>
           dispatch (SET_ERROR (Some ("Failed to setup audio: " ++ message)%string)))
  end.

(** Lines 193-214.  [setup] is the [setupAudio] closure the handler holds. *)
Definition handlePlayStop (setup : Eff unit) (state : State) : Eff unit :=
  match audioContext state with
  | None => setup
  | Some context =>
      try_catch
        (is_susp <- is_suspended context ;;
         (if is_susp : bool then do_resume context else ret tt) ;;
         if isPlaying state then
           gain <- property_of (gainNode state) "gain" ;;
           t <- read_currentTime ;;
           call (setTargetAtTime (gain_gain gain) 0 t 0.015) ;;
           dispatch (SET_PLAYING false)
         else
           gain <- property_of (gainNode state) "gain" ;;
           t <- read_currentTime ;;
           call (setTargetAtTime (gain_gain gain) 0.5 t 0.015) ;;
           dispatch (SET_PLAYING true))
        (fun message =>
           dispatch (SET_ERROR (Some ("Error in audio playback: " ++ message)%string)))
  end.

(** Lines 216-221. *)
Definition handleFrequencyChange (state : State) (newFrequency : Q) : Eff unit :=
  dispatch (SET_FREQUENCY newFrequency) ;;
  match oscillator state, audioContext state with
  | Some osc, Some _ =>
      t <- read_currentTime ;;
      call (setValueAtTime (oscillator_frequency osc) newFrequency t)
  | _, _ => ret tt
  end.

(** Lines 223-228. *)
Definition handleFilterChange (state : State) (newFilterFrequency : Q) : Eff unit :=
  dispatch (SET_FILTER_FREQUENCY newFilterFrequency) ;;
  match filterNode state, audioContext state with
  | Some filter, Some _ =>
      t <- read_currentTime ;;
      call (setValueAtTime (filter_frequency filter) newFilterFrequency t)
  | _, _ => ret tt
  end.

(** Lines 230-236. *)
Definition handleWaveformChange (state : State) (newWaveform : Waveform) : Eff unit :=
  dispatch (SET_WAVEFORM newWaveform) ;;
  match oscillator state with
  | Some osc => call (set_oscillator_type osc newWaveform)
  | None => ret tt
  end.

(** Lines 243-247 ([onMouseDown]) and 251-255 ([onTouchStart]) of a key
    rendered by [renderKey(freq)]. *)
Definition key_onMouseDown (setup : Eff unit) (state : State) (freq : Q) : Eff unit :=
  (match audioContext state with
   | None => setup
   | Some _ => ret tt
   end) ;;
  handleFrequencyChange state freq ;;
  (if negb (isPlaying state) then handlePlayStop setup state else ret tt).

(** Lines 248-250 ([onMouseUp]) and 256-258 ([onTouchEnd]). *)
Definition key_onMouseUp (setup : Eff unit) (state : State) : Eff unit :=
  if isPlaying state then handlePlayStop setup state else ret tt.

(** The twelve keys of lines 336-347, named by their notes. *)
Inductive Key : Type :=
| key_C | key_Cs | key_D | key_Ds | key_E | key_F
| key_Fs | key_G | key_Gs | key_A | key_As | key_B.

Definition keyFrequency (k : Key) : Q :=
  match k with
  | key_C => 261.63 | key_Cs => 277.18 | key_D => 293.66 | key_Ds => 311.13
  | key_E => 329.63 | key_F => 349.23 | key_Fs => 369.99 | key_G => 392.00
  | key_Gs => 415.30 | key_A => 440.00 | key_As => 466.16 | key_B => 493.88
  end.

(** The props of the two knobs (lines 291-308). *)
Definition frequency_min : Q := 20.
Definition frequency_max : Q := 2000.
Definition filter_min : Q := 20.
Definition filter_max : Q := 20000.

Inductive KnobId : Type := FREQUENCY | FILTER.

(** The mounted component: the store, the state held by the memoised
    [setupAudio] closure, the refs of the two knobs, the host, and every
    call the host has received, oldest first. *)
Record App : Type := mkApp {
  state : State;
  setupAudio_state : State;
  frequencyKnob : CustomKnob.Refs;
  filterKnob : CustomKnob.Refs;
  host : Host;
  calls : list HostCall
}.

Definition mountedRefs : CustomKnob.Refs :=
  CustomKnob.withKnobRef true CustomKnob.initialRefs.

Definition initialApp (h : Host) : App :=
  {| state := initialState;
     setupAudio_state := initialState;
     frequencyKnob := mountedRefs;
     filterKnob := mountedRefs;
     host := h;
     calls := [] |}.

(** [useCallback] keeps the previous closure while every dependency is the
    same value ([Object.is]) as in the previous render. *)
Definition setupAudio_deps_unchanged (old new : State) : bool :=
  Waveform_eqb (waveform old) (waveform new)
  && Qeq_bool (frequency old) (frequency new)
  && Qeq_bool (filterFrequency old) (filterFrequency new).

(** After a handler has returned, the queued actions go through [reducer]
    in order and the component renders again. *)
Definition commit (a : App) (fk flk : CustomKnob.Refs) (w : World) : App :=
  let state' := fold_left reducer (dispatched w) (state a) in
  {| state := state';
     setupAudio_state :=
       if setupAudio_deps_unchanged (setupAudio_state a) state'
       then setupAudio_state a else state';
     frequencyKnob := fk;
     filterKnob := flk;
     host := world_host w;
     calls := calls a ++ called w |}.

Definition run (a : App) (m : Eff unit) : World :=
  fst (m (mkWorld (host a) [] [])).

(** What the user and the host can do. *)
Inductive Event : Type :=
| PlayClick
| KeyDown (k : Key)
| KeyUp (k : Key)
| WaveformSelect (w : Waveform)
| KnobMouseDown (k : KnobId) (pointerAngle : Q)
| MouseMove (angleAtFrequencyKnob angleAtFilterKnob : Q)
| MouseUp
| HostAvailability (u : option string)
| HostClock (dt : Q)
| HostSuspend (context : Handle)
| HostResume (context : Handle).

(** The [onChange] call of a knob whose global [mousemove] listener ran. *)
Definition knob_onChange (moved : option (Q * Q)) (onChange : Q -> Eff unit) : Eff unit :=
  match moved with
  | Some (_, newValue) => onChange newValue
  | None => ret tt
  end.

(** The handler an event invokes. *)
Definition handler (e : Event) (a : App) : Eff unit :=
  let setup := setupAudio (setupAudio_state a) in
  match e with
  | PlayClick => handlePlayStop setup (state a)
  | KeyDown k => key_onMouseDown setup (state a) (keyFrequency k)
  | KeyUp _ => key_onMouseUp setup (state a)
  | WaveformSelect w => handleWaveformChange (state a) w
  | MouseMove angle1 angle2 =>
      knob_onChange
        (CustomKnob.handleMouseMove frequency_min frequency_max angle1 (frequencyKnob a))
        (handleFrequencyChange (state a)) ;;
      knob_onChange
        (CustomKnob.handleMouseMove filter_min filter_max angle2 (filterKnob a))
        (handleFilterChange (state a))
  | _ => ret tt
  end.

Definition handle (e : Event) (a : App) : App :=
  match e with
  | KnobMouseDown FREQUENCY angle =>
      mkApp (state a) (setupAudio_state a)
        (CustomKnob.handleMouseDown (frequency (state a)) angle (frequencyKnob a))
        (filterKnob a) (host a) (calls a)
  | KnobMouseDown FILTER angle =>
      mkApp (state a) (setupAudio_state a) (frequencyKnob a)
        (CustomKnob.handleMouseDown (filterFrequency (state a)) angle (filterKnob a))
        (host a) (calls a)
  | MouseUp =>
      mkApp (state a) (setupAudio_state a)
        (CustomKnob.handleMouseUp (frequencyKnob a))
        (CustomKnob.handleMouseUp (filterKnob a)) (host a) (calls a)
  | HostAvailability u =>
      mkApp (state a) (setupAudio_state a) (frequencyKnob a) (filterKnob a)
        (mkHost (nextHandle (host a)) (currentTime (host a)) u
           (suspended (host a)))
        (calls a)
  | HostClock dt =>
      mkApp (state a) (setupAudio_state a) (frequencyKnob a) (filterKnob a)
        (mkHost (nextHandle (host a)) (currentTime (host a) + Qabs dt)
           (unavailable (host a)) (suspended (host a)))
        (calls a)
  | HostSuspend context =>
      mkApp (state a) (setupAudio_state a) (frequencyKnob a) (filterKnob a)
        (mkHost (nextHandle (host a)) (currentTime (host a))
           (unavailable (host a)) (context :: suspended (host a)))
        (calls a)
  | HostResume context =>
      mkApp (state a) (setupAudio_state a) (frequencyKnob a) (filterKnob a)
        (mkHost (nextHandle (host a)) (currentTime (host a))
           (unavailable (host a))
           (filter (fun c => negb (Nat.eqb context c)) (suspended (host a))))
        (calls a)
  | _ => commit a (frequencyKnob a) (filterKnob a) (run a (handler e a))
  end.

Definition handleAll (es : list Event) (a : App) : App :=
  fold_left (fun a e => handle e a) es a.

(** The states the program can be in: a freshly mounted component on a
    fresh host, followed by any sequence of events. *)
Inductive reachable : App -> Prop :=
| reachable_initial : forall u, reachable (initialApp (freshHost u))
| reachable_handle : forall e a, reachable a -> reachable (handle e a).

(** The actions and the host calls one event produces. *)
Definition dispatchedBy (e : Event) (a : App) : list Action :=
  dispatched (run a (handler e a)).

Definition callsBy (e : Event) (a : App) : list HostCall :=
  called (run a (handler e a)).

(* ================================================================== *)
(** ** The knob arithmetic on binary64 floats *)
(* ================================================================== *)

Module IEEE.

Local Open Scope float_scope.
Local Set Warnings "-inexact-float".

(** [Math.PI] *)
Definition Math_PI : float := 0x1.921fb54442d18p+1.

(** [Math.max] and [Math.min] of two numbers: [NaN] when an argument is
    [NaN], and [-0] counts as smaller than [+0]. *)
Definition Math_max (x y : float) : float :=
  if PrimFloat.is_nan x || PrimFloat.is_nan y then nan
  else if PrimFloat.ltb x y then y
  else if PrimFloat.ltb y x then x
  else if PrimFloat.get_sign x then y else x.

Definition Math_min (x y : float) : float :=
  if PrimFloat.is_nan x || PrimFloat.is_nan y then nan
  else if PrimFloat.ltb x y then x
  else if PrimFloat.ltb y x then y
  else if PrimFloat.get_sign x then x else y.

Definition normalizeAngleDiff (angleDiff : float) : float :=
  let angleDiff := if PrimFloat.ltb 180 angleDiff then angleDiff - 360 else angleDiff in
  let angleDiff := if PrimFloat.ltb angleDiff (-180) then angleDiff + 360 else angleDiff in
  angleDiff.

Definition valueToAngle (min max val : float) : float :=
  ((val - min) / (max - min)) * 270 - 135.

Definition angleToValue (min max angle : float) : float :=
  let clampedAngle := Math_max (-135) (Math_min 135 angle) in
  min + ((clampedAngle + 135) / 270) * (max - min).

(** The raw delta of line 82. *)
Definition rawAngleDiff (currentAngle startAngle : float) : float :=
  (currentAngle - startAngle) * (180 / Math_PI).

(** The refs of a knob and lines 73-91, as in [CustomKnob]. *)
Record Refs : Type := mkRefs {
  knobRef : bool;
  isDraggingRef : bool;
  startAngleRef : float;
  startValueRef : float
}.

Definition handleMouseMove (min max pointerAngle : float) (r : Refs)
  : option (float * float) :=
  if negb (isDraggingRef r) || negb (knobRef r) then None
  else
    let currentAngle := pointerAngle in
    let angleDiff := (currentAngle - startAngleRef r) * (180 / Math_PI) in
    let angleDiff := normalizeAngleDiff angleDiff in
    let newAngle := valueToAngle min max (startValueRef r) + angleDiff in
    let newValue := angleToValue min max newAngle in
    Some (newAngle, newValue).


(** The pitches of lines 336-347, as the doubles their literals denote. *)
Definition keyFrequency (k : Key) : float :=
  match k with
  | key_C => 261.63 | key_Cs => 277.18 | key_D => 293.66 | key_Ds => 311.13
  | key_E => 329.63 | key_F => 349.23 | key_Fs => 369.99 | key_G => 392.00
  | key_Gs => 415.30 | key_A => 440.00 | key_As => 466.16 | key_B => 493.88
  end.

(** The double of a whole number. *)
Definition ofNat (n : nat) : float :=
  PrimFloat.of_uint63 (Uint63.of_Z (Z.of_nat n)).

(** [x] is within the machine epsilon times [max] of [v]:
    [|x - v| <= 2^-52 * max]. *)
Definition withinEpsilonOf (max x v : float) : bool :=
  PrimFloat.leb (abs (x - v)) (0x1p-52 * max).

End IEEE.

(* ================================================================== *)
(** ** Vocabulary of the properties *)
(* ================================================================== *)

(** The closed range [lo, hi]. *)
Definition in_range (lo hi x : Q) : Prop := lo <= x <= hi.

(** An action that writes the frequency or the filter cutoff writes a value
    of the range of the corresponding knob. *)
Definition write_in_range (act : Action) : Prop :=
  match act with
  | SET_FREQUENCY payload => in_range frequency_min frequency_max payload
  | SET_FILTER_FREQUENCY payload => in_range filter_min filter_max payload
  | _ => True
  end.

(** A host call that writes the oscillator frequency or the filter cutoff
    writes a value of the range of the corresponding knob. *)
Definition param_write_in_range (c : HostCall) : Prop :=
  match c with
  | setValueAtTime (oscillator_frequency _) value _ =>
      in_range frequency_min frequency_max value
  | setValueAtTime (filter_frequency _) value _ =>
      in_range filter_min filter_max value
  | _ => True
  end.

(** An action that does not write [null] to [error]. *)
Definition keeps_error (act : Action) : Prop :=
  match act with
  | SET_ERROR None => False
  | _ => True
  end.

(** An action other than [SET_PLAYING]. *)
Definition not_SET_PLAYING (act : Action) : Prop :=
  match act with
  | SET_PLAYING _ => False
  | _ => True
  end.

(** A host call that, if it writes a gain at all, schedules an approach of
    the gain of node [gn] with time constant 0.015 towards 0.5 or 0. *)
Definition gain_only_fades (gn : option Handle) (c : HostCall) : Prop :=
  match c with
  | setValueAtTime (gain_gain _) _ _ => False
  | setTargetAtTime (gain_gain gain) target _ timeConstant =>
      gn = Some gain /\ timeConstant = 0.015 /\ (target = 0.5 \/ target = 0)
  | _ => True
  end.

(** A host call that, if it sets a gain instantly, sets it to 0 on a node
    that did not exist when the host was [h]. *)
Definition gain_step_on_new_node (h : Host) (c : HostCall) : Prop :=
  match c with
  | setValueAtTime (gain_gain gain) value _ =>
      value = 0 /\ (nextHandle h <= gain)%nat
  | _ => True
  end.

(** A host call other than [setTargetAtTime]. *)
Definition not_setTargetAtTime (c : HostCall) : Prop :=
  match c with
  | setTargetAtTime _ _ _ _ => False
  | _ => True
  end.

(** The contexts and the nodes a list of host calls creates. *)
Definition contextsCreated (cs : list HostCall) : list Handle :=
  flat_map (fun c => match c with new_AudioContext h => [h] | _ => [] end) cs.

Definition nodesCreated (cs : list HostCall) : list (NodeKind * Handle) :=
  flat_map (fun c => match c with createNode k _ n => [(k, n)] | _ => [] end) cs.

(** The document holds the listener pair of the pending effect run of a
    knob, and no other listener. *)
Definition listeners_match (k : CustomKnob.Knob) : Prop :=
  CustomKnob.document k =
    match CustomKnob.effectRun k with
    | Some n => [(CustomKnob.mousemove, n); (CustomKnob.mouseup, n)]
    | None => []
    end.

(** What holds of every state the program reaches. *)
Definition Inv (a : App) : Prop :=
  in_range frequency_min frequency_max (frequency (state a))
  /\ in_range filter_min filter_max (filterFrequency (state a))
  /\ (audioContext (state a) = None ->
      isPlaying (state a) = false
      /\ audioContext (setupAudio_state a) = None)
  /\ (audioContext (state a) <> None -> gainNode (state a) <> None)
  /\ in_range frequency_min frequency_max (frequency (setupAudio_state a))
  /\ in_range filter_min filter_max (filterFrequency (setupAudio_state a)).

(* ================================================================== *)
(** ** The teardown effect of [WebSynth] (lines 263-273) *)
(* ================================================================== *)

(** The calls the cleanup function makes into the host. *)
Inductive TeardownCall : Type :=
| oscillator_stop (osc : Handle)
| node_disconnect (node : Handle)
| context_close (context : Handle).

(** Lines 264-272: the cleanup function, for the [state] it captured. *)
Definition teardown (state : State) : list TeardownCall :=
  (match oscillator state with
   | Some osc => [oscillator_stop osc; node_disconnect osc]
   | None => []
   end)
  ++ (match gainNode state with
      | Some gain => [node_disconnect gain]
      | None => []
      end)
  ++ (match filterNode state with
      | Some filter => [node_disconnect filter]
      | None => []
      end)
  ++ (match audioContext state with
      | Some context => [context_close context]
      | None => []
      end).

Definition Handle_option_eqb (a b : option Handle) : bool :=
  match a, b with
  | Some x, Some y => Nat.eqb x y
  | None, None => true
  | _, _ => false
  end.

(** The dependency list of line 273. *)
Definition teardown_deps_unchanged (old new : State) : bool :=
  Handle_option_eqb (oscillator old) (oscillator new)
  && Handle_option_eqb (gainNode old) (gainNode new)
  && Handle_option_eqb (filterNode old) (filterNode new)
  && Handle_option_eqb (audioContext old) (audioContext new).

(** The component with its teardown effect: the state the pending cleanup
    captured, and the calls the cleanups that have run so far have made. *)
Record Mounted : Type := mkMounted {
  mounted_app : App;
  teardown_state : State;
  torn_down : list TeardownCall
}.

Definition mount (h : Host) : Mounted :=
  {| mounted_app := initialApp h; teardown_state := initialState;
     torn_down := [] |}.

(** After an event the component renders; when a dependency of the effect
    has changed, the pending cleanup runs and the effect captures the new
    state. *)
Definition handleMounted (e : Event) (m : Mounted) : Mounted :=
  let a := handle e (mounted_app m) in
  if teardown_deps_unchanged (teardown_state m) (state a) then
    {| mounted_app := a; teardown_state := teardown_state m;
       torn_down := torn_down m |}
  else
    {| mounted_app := a; teardown_state := state a;
       torn_down := torn_down m ++ teardown (teardown_state m) |}.

(** Unmounting runs the pending cleanup; the result is every call the
    cleanups have made over the life of the component. *)
Definition unmount (m : Mounted) : list TeardownCall :=
  torn_down m ++ teardown (teardown_state m).

Inductive reachableMounted : Mounted -> Prop :=
| reachableMounted_mount : forall u, reachableMounted (mount (freshHost u))
| reachableMounted_handle : forall e m,
    reachableMounted m -> reachableMounted (handleMounted e m).

(* ================================================================== *)
(** ** The display (line 286) *)
(* ================================================================== *)

(** [Math.round]: the nearest integer, a tie going up. *)
Definition Math_round (x : Q) : Z := Qfloor (x + (1 # 2)).

(** The number shown before ["Hz"]. *)
Definition displayedFrequency (state : State) : Z :=
  Math_round (frequency state).

(* ================================================================== *)
(** ** Vocabulary of the further properties *)
(* ================================================================== *)

(** The field of the store an action writes. *)
Inductive Field : Type :=
| audioContext_field | oscillator_field | gainNode_field | filterNode_field
| isPlaying_field | frequency_field | filterFrequency_field
| waveform_field | error_field.

Definition fieldOf (act : Action) : Field :=
  match act with
  | SET_AUDIO_CONTEXT _ => audioContext_field
  | SET_OSCILLATOR _ => oscillator_field
  | SET_GAIN_NODE _ => gainNode_field
  | SET_FILTER_NODE _ => filterNode_field
  | SET_PLAYING _ => isPlaying_field
  | SET_FREQUENCY _ => frequency_field
  | SET_FILTER_FREQUENCY _ => filterFrequency_field
  | SET_WAVEFORM _ => waveform_field
  | SET_ERROR _ => error_field
  end.

(** The gain value node [g] is heading for after one more host call. *)
Definition gainWrite (g : Handle) (target : option Q) (c : HostCall) : option Q :=
  match c with
  | setValueAtTime (gain_gain g') value _ =>
      if Nat.eqb g g' then Some value else target
  | setTargetAtTime (gain_gain g') value _ _ =>
      if Nat.eqb g g' then Some value else target
  | _ => target
  end.

(** The gain value node [g] is heading for after the calls [cs]. *)
Definition lastGainTarget (g : Handle) (cs : list HostCall) : option Q :=
  fold_left (gainWrite g) cs None.

(** The four handles of the store belong to one graph: the context and the
    three nodes one run of [setupAudio] created, in the order it created
    them. *)
Definition coherent (a : App) : Prop :=
  match audioContext (state a) with
  | None =>
      oscillator (state a) = None
      /\ gainNode (state a) = None
      /\ filterNode (state a) = None
  | Some n =>
      oscillator (state a) = Some (1 + n)%nat
      /\ gainNode (state a) = Some (2 + n)%nat
      /\ filterNode (state a) = Some (3 + n)%nat
      /\ (3 + n < nextHandle (host a))%nat
  end.

(** The host has been told to build the graph of the store: the context
    was constructed, the chain oscillator, filter, gain, destination was
    connected, and the oscillator was started. *)
Definition wired (a : App) : Prop :=
  match audioContext (state a) with
  | None => True
  | Some n =>
      In (new_AudioContext n) (calls a)
      /\ In (connect (1 + n)%nat (3 + n)%nat) (calls a)
      /\ In (connect (3 + n)%nat (2 + n)%nat) (calls a)
      /\ In (connect_destination (2 + n)%nat n) (calls a)
      /\ In (start (1 + n)%nat) (calls a)
  end.

(** A host call that, if it writes an oscillator frequency, writes a value
    equal to [f]. *)
Definition oscillator_written_with (f : Q) (c : HostCall) : Prop :=
  match c with
  | setValueAtTime (oscillator_frequency _) value _ => value == f
  | _ => True
  end.

(* ================================================================== *)
(** * Properties *)
(* ================================================================== *)

(** ** Comparisons on numbers *)

Lemma Qltb_true (x y : Q) : Qltb x y = true <-> x < y.
Proof.
  unfold Qltb. rewrite negb_true_iff, <- not_true_iff_false, Qle_bool_iff.
  split; intro H.
  - apply Qnot_le_lt; exact H.
  - apply Qlt_not_le; exact H.
Qed.

Lemma Qltb_false (x y : Q) : Qltb x y = false <-> y <= x.
Proof.
  unfold Qltb. rewrite negb_false_iff, Qle_bool_iff. reflexivity.
Qed.

Ltac Qltb_cases :=
  repeat match goal with
    | |- context [Qltb ?x ?y] =>
        let E := fresh "E" in
        destruct (Qltb x y) eqn:E;
        [apply Qltb_true in E | apply Qltb_false in E]
    end.

(** ** The angular delta (lines 82-84) *)

Section AngleDiff.

Import CustomKnob.

(** The delta is changed by one of [-360], [0], [+360]. *)
Lemma normalizeAngleDiff_once (d : Q) :
  normalizeAngleDiff d = d
  \/ normalizeAngleDiff d = d - 360
  \/ normalizeAngleDiff d = d + 360.
Proof.
  unfold normalizeAngleDiff. Qltb_cases; auto; exfalso; lra.
Qed.

Lemma normalizeAngleDiff_unchanged (d : Q) :
  -180 <= d <= 180 -> normalizeAngleDiff d = d.
Proof.
  intros [Hlo Hhi]. unfold normalizeAngleDiff.
  Qltb_cases; try reflexivity; exfalso; lra.
Qed.

Lemma normalizeAngleDiff_range (d : Q) :
  -540 <= d <= 540 -> -180 <= normalizeAngleDiff d <= 180.
Proof.
  intros [Hlo Hhi]. unfold normalizeAngleDiff. Qltb_cases; lra.
Qed.

(** A drag from the pointer angle [Math.PI] to the pointer angle [0] has
    the raw delta [-180]. *)
Lemma rawAngleDiff_minus_180 :
  (0 - Math_PI) * (180 / Math_PI) == -180.
Proof. reflexivity. Qed.

(** C2, as the specification states it, fails: the raw delta [-180] is left
    at [-180], outside the half-open interval (-180, 180]; and a raw delta
    of [600] is brought to [240] only. *)
Lemma C2_counterexample :
  normalizeAngleDiff (-180) == -180
  /\ ~ (-180 < normalizeAngleDiff (-180))
  /\ normalizeAngleDiff 600 == 240
  /\ ~ (normalizeAngleDiff 600 <= 180).
Proof.
  split; [reflexivity | split; [| split; [reflexivity |]]].
  - intro H. vm_compute in H. discriminate H.
  - intro H. vm_compute in H. apply H. reflexivity.
Qed.

(** C2 (amended).  Every raw delta between -540 and 540 degrees, which
    covers every difference of two [Math.atan2] angles, is brought into the
    closed interval [-180, 180] by adding or subtracting 360 at most once;
    200 becomes -160, -200 becomes 160, and a delta already in
    [-180, 180] is returned unchanged. *)
Theorem C2_normalizeAngleDiff_closed_interval (d : Q) :
  -540 <= d <= 540 ->
  (-180 <= normalizeAngleDiff d <= 180)
  /\ (normalizeAngleDiff d = d
      \/ normalizeAngleDiff d = d - 360
      \/ normalizeAngleDiff d = d + 360)
  /\ (-180 <= d <= 180 -> normalizeAngleDiff d = d)
  /\ normalizeAngleDiff 200 == -160
  /\ normalizeAngleDiff (-200) == 160.
Proof.
  intro Hd. split; [| split; [| split; [| split]]].
  - apply normalizeAngleDiff_range; exact Hd.
  - apply normalizeAngleDiff_once.
  - apply normalizeAngleDiff_unchanged.
  - reflexivity.
  - reflexivity.
Qed.

Lemma C2_witness :
  (-540 <= 270 <= 540)
  /\ (-180 <= normalizeAngleDiff 270 <= 180).
Proof.
  assert (H : -540 <= 270 <= 540) by (split; discriminate).
  split; [exact H |].
  exact (proj1 (C2_normalizeAngleDiff_closed_interval 270 H)).
Defined.

End AngleDiff.

(** ** The range of [angleToValue] (lines 50-53) *)

Section AngleMapper.

Import CustomKnob.

Variables min max : Q.

(** [Math.max(-135, Math.min(135, angle))] *)
Lemma clampedAngle_range (angle : Q) :
  -135 <= Qmax (-135) (Qmin 135 angle) <= 135.
Proof.
  split.
  - apply Q.le_max_l.
  - apply Q.max_lub; [lra | apply Q.le_min_l].
Qed.

(** [angleToValue] sees its argument only through the clamped angle. *)
Lemma angleToValue_of_clamped (angle c : Q) :
  Qmax (-135) (Qmin 135 angle) == c ->
  angleToValue min max angle == min + ((c + 135) / 270) * (max - min).
Proof.
  intro H. unfold angleToValue. cbv zeta. rewrite H. reflexivity.
Qed.

(** The value handed to [onChange] never leaves the range of the knob. *)
Lemma angleToValue_range (angle : Q) :
  min <= max -> min <= angleToValue min max angle <= max.
Proof.
  intro Hmm.
  rewrite (angleToValue_of_clamped angle _ (Qeq_refl _)).
  destruct (clampedAngle_range angle) as [Hlo Hhi].
  set (c := Qmax (-135) (Qmin 135 angle)) in *.
  assert (Ht : 0 <= (c + 135) / 270 <= 1).
  { split.
    - apply Qle_shift_div_l; [reflexivity | lra].
    - apply Qle_shift_div_r; [reflexivity | lra]. }
  set (t := (c + 135) / 270) in *.
  assert (Hd : 0 <= max - min) by lra.
  destruct Ht as [Ht0 Ht1].
  pose proof (Qmult_le_0_compat _ _ Ht0 Hd) as H0.
  assert (H1 : 0 <= (1 - t) * (max - min))
    by (apply Qmult_le_0_compat; lra).
  split; [lra |].
  assert (E : (1 - t) * (max - min) == (max - min) - t * (max - min)) by ring.
  rewrite E in H1. lra.
Qed.

End AngleMapper.

(** ** The same maps under binary64 rounding, at the program's constants *)

Section Binary64.

Local Open Scope float_scope.

Example IEEE_delta_examples :
  IEEE.normalizeAngleDiff 200 = -160
  /\ IEEE.normalizeAngleDiff (-200) = 160
  /\ IEEE.normalizeAngleDiff (-180) = -180.
Proof. repeat split; vm_compute; reflexivity. Qed.

(** The raw delta [-180] is the one of a drag from pointer angle [Math.PI]
    to pointer angle [0], also after rounding. *)
Example IEEE_delta_minus_180_arises :
  IEEE.rawAngleDiff 0 IEEE.Math_PI = -180.
Proof. vm_compute. reflexivity. Qed.

(** Both knobs: the ends of the range go to the ends of the sweep and back
    without any rounding error. *)
Example IEEE_frequency_knob_ends :
  IEEE.valueToAngle 20 2000 20 = -135
  /\ IEEE.valueToAngle 20 2000 2000 = 135
  /\ IEEE.angleToValue 20 2000 (-135) = 20
  /\ IEEE.angleToValue 20 2000 135 = 2000.
Proof. repeat split; vm_compute; reflexivity. Qed.

Example IEEE_filter_knob_ends :
  IEEE.valueToAngle 20 20000 20 = -135
  /\ IEEE.valueToAngle 20 20000 20000 = 135
  /\ IEEE.angleToValue 20 20000 (-135) = 20
  /\ IEEE.angleToValue 20 20000 135 = 20000.
Proof. repeat split; vm_compute; reflexivity. Qed.

(** Outside the sweep both knobs saturate exactly. *)
Example IEEE_saturation :
  IEEE.angleToValue 20 2000 (-1000) = 20
  /\ IEEE.angleToValue 20 2000 1000 = 2000
  /\ IEEE.angleToValue 20 20000 (-135.5) = 20
  /\ IEEE.angleToValue 20 20000 135.5 = 20000.
Proof. repeat split; vm_compute; reflexivity. Qed.

(** Inside the range the round trip is exact at the midpoint and off by one
    unit in the last place at 440: equal up to rounding, not bit for bit. *)
Example IEEE_round_trip :
  IEEE.valueToAngle 20 2000 1010 = 0
  /\ IEEE.angleToValue 20 2000 (IEEE.valueToAngle 20 2000 1010) = 1010
  /\ IEEE.angleToValue 20 2000 (IEEE.valueToAngle 20 2000 440)
     = 0x1.b800000000001p+8.
Proof. repeat split; vm_compute; reflexivity. Qed.

(** *** Saturation for every binary64 angle *)

Lemma SFltb_asym (x y : SpecFloat.spec_float) :
  SpecFloat.SFltb x y = true -> SpecFloat.SFltb y x = false.
Proof.
  unfold SpecFloat.SFltb.
  destruct x as [sx | sx | | sx mx ex], y as [sy | sy | | sy my ey];
    cbn; try discriminate; try reflexivity;
    try (destruct sx; try discriminate; try reflexivity);
    try (destruct sy; try discriminate; try reflexivity).
  all: rewrite (Z.compare_antisym ex ey);
    destruct (Z.compare ex ey); cbn; try discriminate; try reflexivity;
    change (Pos.compare_cont Eq my mx) with (Pos.compare my mx);
    change (Pos.compare_cont Eq mx my) with (Pos.compare mx my);
    rewrite (Pos.compare_antisym mx my);
    destruct (Pos.compare mx my); cbn; try discriminate; reflexivity.
Qed.

Lemma SFltb_left_not_nan (x y : SpecFloat.spec_float) :
  SpecFloat.SFltb x y = true -> SpecFloat.SFeqb x x = true.
Proof.
  unfold SpecFloat.SFltb, SpecFloat.SFeqb.
  destruct x as [sx | sx | | sx mx ex]; cbn.
  - reflexivity.
  - destruct sx; reflexivity.
  - discriminate.
  - intros _. rewrite Z.compare_refl.
    change (Pos.compare_cont Eq mx mx) with (Pos.compare mx mx).
    rewrite Pos.compare_refl. destruct sx; reflexivity.
Qed.

Lemma ltb_asym (x y : float) :
  PrimFloat.ltb x y = true -> PrimFloat.ltb y x = false.
Proof. rewrite !FloatAxioms.ltb_spec. apply SFltb_asym. Qed.

Lemma ltb_left_not_nan (x y : float) :
  PrimFloat.ltb x y = true -> PrimFloat.is_nan x = false.
Proof.
  unfold PrimFloat.is_nan.
  rewrite FloatAxioms.ltb_spec, FloatAxioms.eqb_spec. intro H.
  rewrite (SFltb_left_not_nan _ _ H). reflexivity.
Qed.

Lemma ltb_right_not_nan (x y : float) :
  PrimFloat.ltb x y = true -> PrimFloat.is_nan y = false.
Proof.
  unfold PrimFloat.is_nan.
  rewrite FloatAxioms.ltb_spec, FloatAxioms.eqb_spec.
  unfold SpecFloat.SFltb, SpecFloat.SFeqb.
  destruct (Prim2SF x) as [sx | sx | | sx mx ex],
           (Prim2SF y) as [sy | sy | | sy my ey]; cbn; try discriminate;
    intros _; try reflexivity; try (destruct sy; reflexivity).
  all: rewrite Z.compare_refl;
    change (Pos.compare_cont Eq my my) with (Pos.compare my my);
    rewrite Pos.compare_refl; destruct sy; reflexivity.
Qed.

(** Anything below a negative number is below every positive number. *)
Lemma SFltb_negative_positive (x : SpecFloat.spec_float)
      (ma mb : positive) (ea eb : Z) :
  SpecFloat.SFltb x (SpecFloat.S754_finite true ma ea) = true ->
  SpecFloat.SFltb x (SpecFloat.S754_finite false mb eb) = true.
Proof.
  unfold SpecFloat.SFltb, SpecFloat.SFcompare.
  destruct x as [sx | sx | | sx mx ex];
    try discriminate; destruct sx; try discriminate; reflexivity.
Qed.

Lemma ltb_minus_135_135 (x : float) :
  PrimFloat.ltb x (-135) = true -> PrimFloat.ltb x 135 = true.
Proof.
  rewrite !FloatAxioms.ltb_spec.
  destruct (Prim2SF (-135)) as [| | | sa ma ea] eqn:Ea;
    try (vm_compute in Ea; discriminate Ea).
  destruct (Prim2SF 135) as [| | | sb mb eb] eqn:Eb;
    try (vm_compute in Eb; discriminate Eb).
  assert (sa = true) as -> by (vm_compute in Ea; congruence).
  assert (sb = false) as -> by (vm_compute in Eb; congruence).
  apply SFltb_negative_positive.
Qed.

Lemma IEEE_clamp_below (angle : float) :
  PrimFloat.ltb angle (-135) = true ->
  IEEE.Math_max (-135) (IEEE.Math_min 135 angle) = -135.
Proof.
  intro H.
  pose proof (ltb_left_not_nan _ _ H) as Hnan.
  pose proof (ltb_minus_135_135 _ H) as H135.
  pose proof (ltb_asym _ _ H135) as H135'.
  pose proof (ltb_asym _ _ H) as H'.
  unfold IEEE.Math_min.
  rewrite Hnan, H135', H135. cbn [PrimFloat.is_nan orb].
  replace (PrimFloat.is_nan 135) with false by (vm_compute; reflexivity).
  cbn [orb]. unfold IEEE.Math_max.
  replace (PrimFloat.is_nan (-135)) with false by (vm_compute; reflexivity).
  rewrite Hnan, H', H. reflexivity.
Qed.

Lemma IEEE_clamp_above (angle : float) :
  PrimFloat.ltb 135 angle = true ->
  IEEE.Math_max (-135) (IEEE.Math_min 135 angle) = 135.
Proof.
  intro H.
  pose proof (ltb_right_not_nan _ _ H) as Hnan.
  unfold IEEE.Math_min.
  replace (PrimFloat.is_nan 135) with false by (vm_compute; reflexivity).
  rewrite Hnan, H. cbn [orb]. vm_compute. reflexivity.
Qed.

(** For every binary64 angle below -135 both knobs return exactly their
    [min], and for every angle above 135 exactly their [max]. *)
Lemma IEEE_angleToValue_saturates (angle : float) :
  (PrimFloat.ltb angle (-135) = true ->
   IEEE.angleToValue 20 2000 angle = 20
   /\ IEEE.angleToValue 20 20000 angle = 20)
  /\ (PrimFloat.ltb 135 angle = true ->
      IEEE.angleToValue 20 2000 angle = 2000
      /\ IEEE.angleToValue 20 20000 angle = 20000).
Proof.
  split; intro H; unfold IEEE.angleToValue; cbv zeta.
  - rewrite (IEEE_clamp_below angle H). split; vm_compute; reflexivity.
  - rewrite (IEEE_clamp_above angle H). split; vm_compute; reflexivity.
Qed.

(** The exactness at the ends belongs to these props: with [min = -1] and
    [max = 2^-70] the sum [min + (max - min)] rounds to [0]. *)
Example IEEE_ends_depend_on_props :
  IEEE.angleToValue (-1) 0x1p-70 135 = 0.
Proof. vm_compute. reflexivity. Qed.

End Binary64.

(** ** The two maps as inverses, in binary64 *)

Section InverseMaps.

Local Open Scope float_scope.






(** C8, as the specification states it, fails: with the props [min = -1]
    and [max = 0.1] an angle above 135 gives 0.10000000000000009, a value
    beyond [max]; and with props whose difference overflows, an angle below
    -135 gives NaN and an angle above 135 gives infinity. *)
Lemma C8_counterexample :
  let max := 0x1.999999999999ap-4 in
  let huge := 0x1.fffffffffffffp+1023 in
  PrimFloat.ltb 135 136 = true
  /\ PrimFloat.ltb (-136) (-135) = true
  /\ IEEE.angleToValue (-1) max 136 = 0x1.99999999999a0p-4
  /\ PrimFloat.ltb max (IEEE.angleToValue (-1) max 136) = true
  /\ PrimFloat.is_nan (IEEE.angleToValue (- huge) huge (-136)) = true
  /\ IEEE.angleToValue (- huge) huge 136 = infinity.
Proof. repeat split; vm_compute; reflexivity. Qed.

(** C8 (amended).  For every binary64 angle outside [-135, 135], the
    infinities included, [angleToValue] works on the angle clamped into
    [-135, 135]: it returns what it returns at -135 for an angle below and
    what it returns at 135 for an angle above, for all props, and so never
    wraps.  With the props of the two knobs of the program these two values
    are exactly [min] and [max]. *)
Theorem C8_angleToValue_saturates_at_the_clamped_angle (min max angle : float) :
  PrimFloat.ltb angle (-135) = true \/ PrimFloat.ltb 135 angle = true ->
  IEEE.Math_max (-135) (IEEE.Math_min 135 angle)
  = (if PrimFloat.ltb angle (-135) then -135 else 135)
  /\ IEEE.angleToValue min max angle
     = IEEE.angleToValue min max (if PrimFloat.ltb angle (-135) then -135 else 135)
  /\ IEEE.angleToValue 20 2000 angle
     = (if PrimFloat.ltb angle (-135) then 20 else 2000)
  /\ IEEE.angleToValue 20 20000 angle
     = (if PrimFloat.ltb angle (-135) then 20 else 20000).
Proof.
  intro Hout.
  assert (Hc : IEEE.Math_max (-135) (IEEE.Math_min 135 angle)
               = (if PrimFloat.ltb angle (-135) then -135 else 135)).
  { destruct Hout as [H | H].
    - rewrite H. apply IEEE_clamp_below. exact H.
    - assert (Hn : PrimFloat.ltb angle (-135) = false).
      { destruct (PrimFloat.ltb angle (-135)) eqn:E; [| reflexivity].
        pose proof (ltb_asym _ _ (ltb_minus_135_135 _ E)) as E'.
        congruence. }
      rewrite Hn. apply IEEE_clamp_above. exact H. }
  assert (Hgen : forall lo hi,
             IEEE.angleToValue lo hi angle
             = IEEE.angleToValue lo hi
                 (if PrimFloat.ltb angle (-135) then -135 else 135)).
  { intros lo hi. unfold IEEE.angleToValue. cbv zeta. rewrite Hc.
    destruct (PrimFloat.ltb angle (-135)).
    - replace (IEEE.Math_max (-135) (IEEE.Math_min 135 (-135))) with (-135)
        by (vm_compute; reflexivity).
      reflexivity.
    - replace (IEEE.Math_max (-135) (IEEE.Math_min 135 135)) with 135
        by (vm_compute; reflexivity).
      reflexivity. }
  split; [exact Hc | split; [apply Hgen | split]].
  - rewrite Hgen. destruct (PrimFloat.ltb angle (-135)); vm_compute; reflexivity.
  - rewrite Hgen. destruct (PrimFloat.ltb angle (-135)); vm_compute; reflexivity.
Qed.

Lemma C8_witness :
  (PrimFloat.ltb (-500) (-135) = true \/ PrimFloat.ltb 135 (-500) = true)
  /\ IEEE.angleToValue 20 2000 (-500) = 20.
Proof.
  assert (H : PrimFloat.ltb (-500) (-135) = true
              \/ PrimFloat.ltb 135 (-500) = true)
    by (left; vm_compute; reflexivity).
  split; [exact H |].
  exact (proj1 (proj2 (proj2
           (C8_angleToValue_saturates_at_the_clamped_angle 20 2000 (-500) H)))).
Defined.

End InverseMaps.

(** ** Evaluating handlers *)

Ltac destruct_app a :=
  destruct a as [[ctx osc gn fn pl f ff wf er]
                   [cctx cosc cgn cfn cpl cf cff cwf cer]
                   fk flk [nh t un su] cl].

Ltac eval_eff :=
  cbv beta iota zeta delta
    [handle dispatchedBy callsBy commit run handler
     key_onMouseDown key_onMouseUp handlePlayStop setupAudio
     handleFrequencyChange handleFilterChange handleWaveformChange
     knob_onChange try_catch construct_AudioContext is_suspended
     property_of bind ret throw dispatch call allocate read_currentTime
     create do_resume
     world_host dispatched called fst snd
     state setupAudio_state frequencyKnob filterKnob host calls
     audioContext oscillator gainNode filterNode isPlaying frequency
     filterFrequency waveform error
     nextHandle currentTime unavailable suspended
     reducer fold_left app negb].

Ltac eval_eff_in H :=
  cbv beta iota zeta delta
    [handle dispatchedBy callsBy commit run handler
     key_onMouseDown key_onMouseUp handlePlayStop setupAudio
     handleFrequencyChange handleFilterChange handleWaveformChange
     knob_onChange try_catch construct_AudioContext is_suspended
     property_of bind ret throw dispatch call allocate read_currentTime
     create do_resume
     world_host dispatched called fst snd
     state setupAudio_state frequencyKnob filterKnob host calls
     audioContext oscillator gainNode filterNode isPlaying frequency
     filterFrequency waveform error
     nextHandle currentTime unavailable suspended
     reducer fold_left app negb] in H.

(** Case analysis on whatever a handler branches on. *)
Ltac split_handler :=
  repeat (eval_eff;
    match goal with
    | |- context [match ?x with _ => _ end] =>
        first [ is_var x; destruct x
              | match x with
                | CustomKnob.handleMouseMove _ _ _ _ =>
                    let E := fresh "Emove" in
                    destruct x as [[? ?] |] eqn:E
                | existsb _ _ => destruct x
                | setupAudio_deps_unchanged _ _ => destruct x
                end ]
    end);
  eval_eff.

Ltac all_actions :=
  repeat first [apply Forall_nil | apply Forall_cons]; try exact I.

Lemma handleMouseMove_in_range (min max p : Q) (r : CustomKnob.Refs) (ang v : Q) :
  min <= max ->
  CustomKnob.handleMouseMove min max p r = Some (ang, v) ->
  in_range min max v.
Proof.
  intros Hmm. unfold CustomKnob.handleMouseMove.
  destruct (negb (CustomKnob.isDraggingRef r) || negb (CustomKnob.knobRef r)).
  - discriminate.
  - intro H. injection H as _ <-. apply angleToValue_range. exact Hmm.
Qed.

(** An idle knob ignores the pointer. *)
Lemma handleMouseMove_idle (min max p : Q) (r : CustomKnob.Refs) :
  CustomKnob.isDraggingRef r = false ->
  CustomKnob.handleMouseMove min max p r = None.
Proof. intro H. unfold CustomKnob.handleMouseMove. rewrite H. reflexivity. Qed.

Lemma keyFrequency_in_range (k : Key) :
  in_range frequency_min frequency_max (keyFrequency k).
Proof. destruct k; split; discriminate. Qed.

Lemma frequency_range_proper : frequency_min <= frequency_max.
Proof. discriminate. Qed.

Lemma filter_range_proper : filter_min <= filter_max.
Proof. discriminate. Qed.

Ltac knob_range :=
  match goal with
  | |- in_range _ _ (keyFrequency ?k) => exact (keyFrequency_in_range k)
  | E : CustomKnob.handleMouseMove frequency_min frequency_max _ _ = Some (_, ?v)
    |- in_range frequency_min frequency_max ?v =>
      exact (handleMouseMove_in_range _ _ _ _ _ _ frequency_range_proper E)
  | E : CustomKnob.handleMouseMove filter_min filter_max _ _ = Some (_, ?v)
    |- in_range filter_min filter_max ?v =>
      exact (handleMouseMove_in_range _ _ _ _ _ _ filter_range_proper E)
  | H : in_range ?lo ?hi ?v |- in_range ?lo ?hi ?v => exact H
  end.

(** ** What a handler dispatches *)

(** The store itself keeps whatever payload it is given. *)
Remark reducer_stores_payload (s : State) (p : Q) :
  frequency (reducer s (SET_FREQUENCY p)) = p
  /\ filterFrequency (reducer s (SET_FILTER_FREQUENCY p)) = p.
Proof. split; reflexivity. Qed.

Lemma dispatched_writes_in_range (e : Event) (a : App) :
  Forall write_in_range (dispatchedBy e a).
Proof.
  destruct_app a.
  destruct e as [| k | k | w | [|] p | p1 p2 | | u | dt | c | c'];
    split_handler; all_actions; cbv [write_in_range]; knob_range.
Qed.

Lemma called_writes_in_range (e : Event) (a : App) :
  Inv a -> Forall param_write_in_range (callsBy e a).
Proof.
  destruct_app a. unfold Inv.
  intros (Hf & Hff & _ & _ & Hcf & Hcff). eval_eff_in Hf. eval_eff_in Hff.
  eval_eff_in Hcf. eval_eff_in Hcff.
  destruct e as [| k | k | w | [|] p | p1 p2 | | u | dt | c | c'];
    split_handler; all_actions; cbv [param_write_in_range]; knob_range.
Qed.

Lemma dispatched_keeps_error (e : Event) (a : App) :
  Forall keeps_error (dispatchedBy e a).
Proof.
  destruct_app a.
  destruct e as [| k | k | w | [|] p | p1 p2 | | u | dt | c | c'];
    split_handler; all_actions.
Qed.

(** ** The invariant *)

Lemma Inv_initial (u : option string) : Inv (initialApp (freshHost u)).
Proof.
  cbv [Inv initialApp state setupAudio_state initialState frequency
       filterFrequency audioContext isPlaying gainNode].
  repeat split; try discriminate; try reflexivity.
  intro H; exfalso; apply H; reflexivity.
Qed.

Lemma Inv_handle (e : Event) (a : App) : Inv a -> Inv (handle e a).
Proof.
  destruct_app a. unfold Inv.
  intros (Hf & Hff & Hstop & Hgraph & Hcf & Hcff). eval_eff_in Hf.
  eval_eff_in Hff. eval_eff_in Hstop. eval_eff_in Hgraph.
  eval_eff_in Hcf. eval_eff_in Hcff.
  destruct e as [| k | k | w | [|] p | p1 p2 | | u | dt | c | c'];
    split_handler;
    (split; [knob_range | split; [knob_range | split; [| split;
       [| split; [knob_range | knob_range]]]]]);
    try (intro Hn; first [discriminate Hn | exact (Hstop Hn)
                         | exfalso; apply Hn; reflexivity
                         | exact (Hgraph Hn)
                         | intro Hg; discriminate Hg ]).
  all: try (intros _; split; [ exact (proj1 (Hstop eq_refl)) || reflexivity
                             | exact (proj2 (Hstop eq_refl)) || reflexivity ]).
  all: try (destruct (Hstop eq_refl) as [Hp _]; discriminate Hp).
  all: try (exfalso; apply Hgraph; [discriminate | reflexivity]).
  all: intro Hn; split; [exact (proj1 (Hstop Hn)) | exact Hn].
Qed.

Lemma reachable_Inv (a : App) : reachable a -> Inv a.
Proof.
  induction 1 as [u | e a _ IH].
  - apply Inv_initial.
  - apply Inv_handle; exact IH.
Qed.

Lemma state_handle (e : Event) (a : App) :
  state (handle e a) = fold_left reducer (dispatchedBy e a) (state a).
Proof. destruct e as [| | | | [|] ? | | | | | |]; reflexivity. Qed.

Lemma fold_reducer_invariant (J : State -> Prop) (P : Action -> Prop) :
  (forall s act, J s -> P act -> J (reducer s act)) ->
  forall acts s, Forall P acts -> J s -> J (fold_left reducer acts s).
Proof.
  intros Hstep acts. induction acts as [| act acts IH]; intros s HP HJ.
  - exact HJ.
  - inversion HP as [| ? ? Hact Hacts]; subst.
    apply IH; [exact Hacts | apply Hstep; assumption].
Qed.

(** C1.  In every state the program reaches from its initial state by
    events (knob drags, key presses, play clicks, waveform selections) the
    frequency lies in [20, 2000] and the filter cutoff in [20, 20000]; and
    every write of either value carries a value of that range, both the
    writes to the store that a handler dispatches and the writes to the
    audio parameters of the host: a knob writes the result of
    [angleToValue], which works on the clamped angle, and a key writes its
    fixed pitch. *)
Theorem C1_frequency_and_cutoff_stay_in_range (a : App) :
  reachable a ->
  (20 <= frequency (state a) <= 2000)
  /\ (20 <= filterFrequency (state a) <= 20000)
  /\ (forall e, Forall write_in_range (dispatchedBy e a))
  /\ (forall e, Forall param_write_in_range (callsBy e a)).
Proof.
  intro Hr. destruct (reachable_Inv a Hr) as (Hf & Hff & _).
  split; [exact Hf | split; [exact Hff | split]].
  - intro e. apply dispatched_writes_in_range.
  - intro e. apply called_writes_in_range. apply reachable_Inv. exact Hr.
Qed.

Lemma C1_witness :
  let a := handleAll [KnobMouseDown FREQUENCY 0; MouseMove 1 0; KeyDown key_G]
             (initialApp (freshHost None)) in
  reachable a /\ 20 <= frequency (state a) <= 2000.
Proof.
  intro a.
  assert (Hr : reachable a).
  { unfold a, handleAll. cbn [fold_left].
    do 3 apply reachable_handle. apply reachable_initial. }
  split; [exact Hr |].
  exact (proj1 (C1_frequency_and_cutoff_stay_in_range a Hr)).
Defined.

(** ** Key presses *)

(** With a graph in the store, a key pressed while stopped starts playback
    at the pitch of the key. *)
Lemma key_press_with_graph (a : App) (k : Key) (context : Handle) :
  reachable a ->
  audioContext (state a) = Some context ->
  isPlaying (state a) = false ->
  isPlaying (state (handle (KeyDown k) a)) = true
  /\ frequency (state (handle (KeyDown k) a)) = keyFrequency k.
Proof.
  intros Hr Hctx Hpl. destruct (reachable_Inv a Hr) as (_ & _ & _ & Hgraph & _).
  destruct_app a. eval_eff_in Hctx. eval_eff_in Hpl. eval_eff_in Hgraph.
  subst ctx pl.
  destruct gn as [g |]; [| exfalso; apply Hgraph; [discriminate | reflexivity]].
  split_handler; split; reflexivity.
Qed.

(** A released key leaves the synth stopped and the frequency as it was. *)
Lemma key_release (a : App) (k : Key) :
  reachable a ->
  isPlaying (state (handle (KeyUp k) a)) = false
  /\ frequency (state (handle (KeyUp k) a)) = frequency (state a).
Proof.
  intros Hr. destruct (reachable_Inv a Hr) as (_ & _ & Hstop & Hgraph & _).
  destruct_app a. eval_eff_in Hstop. eval_eff_in Hgraph.
  destruct pl.
  - destruct ctx as [c |]; [| destruct (Hstop eq_refl); discriminate].
    destruct gn as [g |]; [| exfalso; apply Hgraph; [discriminate | reflexivity]].
    split_handler; split; reflexivity.
  - split_handler; split; reflexivity.
Qed.

(** C4.  The first key press of a session, on a synth that is stopped and
    has no graph yet, sets the frequency to the pitch of the key but leaves
    [isPlaying] false: [handlePlayStop] still sees the state without an
    audio context, calls [setupAudio] again and returns. *)
Theorem C4_first_key_press_does_not_start (k : Key) :
  let a := handle (KeyDown k) (initialApp (freshHost None)) in
  isPlaying (state a) = false
  /\ frequency (state a) = keyFrequency k
  /\ audioContext (state a) = Some 4%nat.
Proof. cbv zeta. repeat split. Qed.

(** ** Graph creation *)

(** The guard of [setupAudio]: a closure whose state has an audio context
    does nothing. *)
Lemma setupAudio_guard (s : State) (context : Handle) (w : World) :
  audioContext s = Some context -> setupAudio s w = (w, inr tt).
Proof. intro H. unfold setupAudio. rewrite H. reflexivity. Qed.

(** Called twice in a row, one [setupAudio] closure whose state has no
    audio context builds two contexts, and three nodes on each. *)
Lemma setupAudio_twice (s : State) (w : World) :
  audioContext s = None ->
  unavailable (world_host w) = None ->
  called w = [] ->
  let n := nextHandle (world_host w) in
  let w2 := fst ((setupAudio s ;; setupAudio s)%eff w) in
  contextsCreated (called w2) = [n; (4 + n)%nat]
  /\ nodesCreated (called w2) =
       [(OscillatorNode, (1 + n)%nat); (GainNode, (2 + n)%nat);
        (BiquadFilterNode, (3 + n)%nat);
        (OscillatorNode, (5 + n)%nat); (GainNode, (6 + n)%nat);
        (BiquadFilterNode, (7 + n)%nat)].
Proof.
  destruct w as [[nh t un su] ds cs]. destruct s as [ctx ? ? ? ? ? ? ? ?].
  cbn [audioContext world_host unavailable called nextHandle].
  intros -> -> ->. split; reflexivity.
Qed.

(** C5.  On the first key press [setupAudio] runs twice in a row, once from
    the key handler and once from [handlePlayStop]; both runs see the state
    without an audio context.  Two contexts and six nodes are created, and
    the store ends up with the second graph, not the first. *)
Theorem C5_first_key_press_creates_two_graphs (k : Key) :
  let a := initialApp (freshHost None) in
  contextsCreated (callsBy (KeyDown k) a) = [0%nat; 4%nat]
  /\ nodesCreated (callsBy (KeyDown k) a) =
       [(OscillatorNode, 1%nat); (GainNode, 2%nat); (BiquadFilterNode, 3%nat);
        (OscillatorNode, 5%nat); (GainNode, 6%nat); (BiquadFilterNode, 7%nat)]
  /\ audioContext (state (handle (KeyDown k) a)) = Some 4%nat
  /\ gainNode (state (handle (KeyDown k) a)) = Some 6%nat.
Proof. cbv zeta. repeat split. Qed.

(** The first play click on an available host creates one graph. *)
Lemma first_setup_creates_graph (a : App) :
  audioContext (state a) = None ->
  audioContext (setupAudio_state a) = None ->
  unavailable (host a) = None ->
  let n := nextHandle (host a) in
  audioContext (state (handle PlayClick a)) = Some n
  /\ gainNode (state (handle PlayClick a)) = Some (2 + n)%nat
  /\ contextsCreated (callsBy PlayClick a) = [n]
  /\ In (setValueAtTime (gain_gain (2 + n)%nat) 0 (currentTime (host a)))
       (callsBy PlayClick a).
Proof.
  destruct_app a. intros H1 H2 H3. eval_eff_in H1. eval_eff_in H2.
  eval_eff_in H3. subst ctx cctx un.
  eval_eff. cbv [contextsCreated flat_map app In Nat.add].
  split; [reflexivity | split; [reflexivity | split; [reflexivity |]]].
  do 6 right. left. reflexivity.
Qed.

(** ** Gain changes *)

Lemma gain_steps_only_on_new_nodes (e : Event) (a : App) :
  Forall (gain_step_on_new_node (host a)) (callsBy e a).
Proof.
  destruct_app a.
  destruct e as [| k | k | w | [|] p | p1 p2 | | u | dt | c | c'];
    split_handler; all_actions;
    cbv [gain_step_on_new_node nextHandle]; (split; [reflexivity | lia]).
Qed.

(** C6.  While the store holds a graph, no handler sets a gain instantly:
    the only gain writes are [setTargetAtTime] on the gain node of the
    graph, with time constant 0.015 and target 0.5 or 0.  A transition from
    stopped to playing schedules the approach to 0.5 and a transition from
    playing to stopped the approach to 0, both at the current time. *)
Theorem C6_gain_changes_only_by_fades (a : App) (e : Event) (context : Handle) :
  audioContext (state a) = Some context ->
  Forall (gain_only_fades (gainNode (state a))) (callsBy e a)
  /\ (isPlaying (state a) = false ->
      isPlaying (state (handle e a)) = true ->
      exists gain,
        gainNode (state a) = Some gain
        /\ In (setTargetAtTime (gain_gain gain) 0.5 (currentTime (host a)) 0.015)
             (callsBy e a))
  /\ (isPlaying (state a) = true ->
      isPlaying (state (handle e a)) = false ->
      exists gain,
        gainNode (state a) = Some gain
        /\ In (setTargetAtTime (gain_gain gain) 0 (currentTime (host a)) 0.015)
             (callsBy e a)).
Proof.
  intro Hctx. destruct_app a. eval_eff_in Hctx. subst ctx.
  destruct e as [| k | k | w | [|] p | p1 p2 | | u | dt | c | c'];
    split_handler;
    (split; [all_actions; cbv [gain_only_fades]; auto | split]);
    intros Hbefore Hafter;
    first [ discriminate Hbefore | discriminate Hafter | congruence
          | eexists; (split; [reflexivity |]); cbv [In]; auto ].
Qed.

Lemma C6_witness :
  let a := handle PlayClick (initialApp (freshHost None)) in
  audioContext (state a) = Some 0%nat
  /\ Forall (gain_only_fades (gainNode (state a))) (callsBy PlayClick a)
  /\ In (setTargetAtTime (gain_gain 2%nat) 0.5 0 0.015) (callsBy PlayClick a).
Proof.
  intro a.
  assert (H : audioContext (state a) = Some 0%nat) by reflexivity.
  split; [exact H | split].
  - exact (proj1 (C6_gain_changes_only_by_fades a PlayClick 0%nat H)).
  - vm_compute. left. reflexivity.
Defined.

(** ** Errors *)

Lemma error_kept (e : Event) (a : App) :
  error (state a) <> None -> error (state (handle e a)) <> None.
Proof.
  rewrite state_handle.
  apply (fold_reducer_invariant (fun s => error s <> None) keeps_error).
  - intros s act Hs Hact.
    destruct act as [| | | | | | | | [msg |]]; cbn; try exact Hs.
    + discriminate.
    + destruct Hact.
  - apply dispatched_keeps_error.
Qed.

Lemma error_kept_all (es : list Event) (a : App) :
  error (state a) <> None -> error (state (handleAll es a)) <> None.
Proof.
  revert a. induction es as [| e es IH]; intros a H.
  - exact H.
  - cbn. apply IH. apply error_kept. exact H.
Qed.

(** C7, as the specification states it, fails: after a failed graph creation
    and a later play click on which the creation succeeds, the error message
    is still in the store. *)
Lemma C7_counterexample :
  let a := handleAll [PlayClick; HostAvailability None; PlayClick]
             (initialApp (freshHost (Some "NotAllowedError"%string))) in
  audioContext (state a) = Some 0%nat
  /\ gainNode (state a) = Some 2%nat
  /\ error (state a) = Some "Failed to setup audio: NotAllowedError"%string
  /\ error (state a) <> None.
Proof. vm_compute. repeat split. discriminate. Qed.

(** C7 (amended).  When the host cannot supply an audio context, a play
    click or a key press in a state without a graph leaves [isPlaying] false
    and the store without a graph, and records the message of the failure in
    [error].  The recorded error then stays: no later event, a successful
    graph creation included, sets [error] back to null. *)
Theorem C7_failed_setup_records_error (a : App) (e : Event) (message : string) :
  reachable a ->
  audioContext (state a) = None ->
  unavailable (host a) = Some message ->
  (e = PlayClick \/ exists k, e = KeyDown k) ->
  isPlaying (state (handle e a)) = false
  /\ audioContext (state (handle e a)) = None
  /\ error (state (handle e a))
     = Some ("Failed to setup audio: " ++ message)%string
  /\ (forall es, error (state (handleAll es (handle e a))) <> None).
Proof.
  intros Hr Hctx Hun He.
  destruct (reachable_Inv a Hr) as (_ & _ & Hstop & _).
  destruct (Hstop Hctx) as [Hpl Hcap].
  assert (H3 : isPlaying (state (handle e a)) = false
               /\ audioContext (state (handle e a)) = None
               /\ error (state (handle e a))
                  = Some ("Failed to setup audio: " ++ message)%string).
  { clear Hr Hstop. destruct_app a.
    eval_eff_in Hctx. eval_eff_in Hun. eval_eff_in Hpl. eval_eff_in Hcap.
    subst ctx un pl cctx.
    destruct He as [-> | [k ->]]; split_handler; repeat split. }
  destruct H3 as (H1 & H2 & H3).
  split; [exact H1 | split; [exact H2 | split; [exact H3 |]]].
  intro es. apply error_kept_all. rewrite H3. discriminate.
Qed.

Lemma C7_witness :
  let a := initialApp (freshHost (Some "NotAllowedError"%string)) in
  reachable a
  /\ error (state (handle PlayClick a))
     = Some "Failed to setup audio: NotAllowedError"%string
  /\ error (state (handleAll [HostAvailability None; PlayClick]
                     (handle PlayClick a))) <> None.
Proof.
  intro a.
  assert (Hr : reachable a) by apply reachable_initial.
  pose proof (C7_failed_setup_records_error a PlayClick "NotAllowedError"%string
                Hr eq_refl eq_refl (or_introl eq_refl)) as (_ & _ & H3 & H4).
  split; [exact Hr | split; [exact H3 | exact (H4 _)]].
Defined.

(** ** The closure of [setupAudio] holds the current values *)

Lemma Waveform_eqb_eq (a b : Waveform) : Waveform_eqb a b = true -> a = b.
Proof. destruct a, b; try reflexivity; discriminate. Qed.

Lemma setupAudio_deps_refl (s : State) : setupAudio_deps_unchanged s s = true.
Proof.
  unfold setupAudio_deps_unchanged. rewrite !Qeq_bool_refl.
  destruct (waveform s); reflexivity.
Qed.

Lemma closure_current_handle (e : Event) (a : App) :
  setupAudio_deps_unchanged (setupAudio_state a) (state a) = true ->
  setupAudio_deps_unchanged (setupAudio_state (handle e a)) (state (handle e a))
  = true.
Proof.
  intro H.
  destruct e as [| | | | [|] ? | | | | | |]; try exact H;
    unfold handle, commit; cbn [state setupAudio_state];
    match goal with
    | |- context [if ?c then _ else _] => destruct c eqn:E
    end;
    first [exact E | apply setupAudio_deps_refl].
Qed.

Lemma closure_current (a : App) :
  reachable a ->
  waveform (setupAudio_state a) = waveform (state a)
  /\ frequency (setupAudio_state a) == frequency (state a)
  /\ filterFrequency (setupAudio_state a) == filterFrequency (state a).
Proof.
  intro Hr.
  assert (H : setupAudio_deps_unchanged (setupAudio_state a) (state a) = true).
  { induction Hr as [u | e a _ IH].
    - reflexivity.
    - apply closure_current_handle. exact IH. }
  unfold setupAudio_deps_unchanged in H.
  apply andb_true_iff in H. destruct H as [H H3].
  apply andb_true_iff in H. destruct H as [H1 H2].
  split; [apply Waveform_eqb_eq; exact H1 | split; apply Qeq_bool_iff; assumption].
Qed.

(** ** The play button without a graph *)

(** C10.  When the play/stop handler runs in a state without an audio
    context it is exactly a call of [setupAudio]: no [SET_PLAYING] is
    dispatched and no fade is scheduled, so [isPlaying] keeps its value,
    which is false.  On an available host this first activation creates the
    whole graph and nothing else: the calls into the host are, in this
    order, the construction of a context, the creation of an oscillator, a
    gain and a low-pass filter on it, the waveform and the frequency of the
    store on the oscillator, the gain 0, the cutoff of the store on the
    filter, the connections oscillator to filter to gain to destination, and
    the start of the oscillator; the four handles are put into the store.
    On a host that refuses a context nothing is called and only the error
    is recorded. *)
Theorem C10_play_without_context_only_sets_up (a : App) :
  reachable a ->
  audioContext (state a) = None ->
  handler PlayClick a = setupAudio (setupAudio_state a)
  /\ isPlaying (state (handle PlayClick a)) = isPlaying (state a)
  /\ isPlaying (state (handle PlayClick a)) = false
  /\ Forall not_SET_PLAYING (dispatchedBy PlayClick a)
  /\ Forall not_setTargetAtTime (callsBy PlayClick a)
  /\ (unavailable (host a) = None ->
      exists context gain,
        audioContext (state (handle PlayClick a)) = Some context
        /\ gainNode (state (handle PlayClick a)) = Some gain
        /\ contextsCreated (callsBy PlayClick a) = [context]
        /\ In (setValueAtTime (gain_gain gain) 0 (currentTime (host a)))
             (callsBy PlayClick a))
  /\ (unavailable (host a) = None ->
      let context := nextHandle (host a) in
      let osc := (1 + context)%nat in
      let gain := (2 + context)%nat in
      let filter := (3 + context)%nat in
      let t := currentTime (host a) in
      exists f ff,
        f == frequency (state a)
        /\ ff == filterFrequency (state a)
        /\ callsBy PlayClick a
           = [new_AudioContext context;
              createNode OscillatorNode context osc;
              createNode GainNode context gain;
              createNode BiquadFilterNode context filter;
              set_oscillator_type osc (waveform (state a));
              setValueAtTime (oscillator_frequency osc) f t;
              setValueAtTime (gain_gain gain) 0 t;
              set_filter_type_lowpass filter;
              setValueAtTime (filter_frequency filter) ff t;
              connect osc filter;
              connect filter gain;
              connect_destination gain context;
              start osc]
        /\ dispatchedBy PlayClick a
           = [SET_AUDIO_CONTEXT (Some context);
              SET_OSCILLATOR (Some osc);
              SET_GAIN_NODE (Some gain);
              SET_FILTER_NODE (Some filter)]
        /\ nodesCreated (callsBy PlayClick a)
           = [(OscillatorNode, osc); (GainNode, gain); (BiquadFilterNode, filter)]
        /\ audioContext (state (handle PlayClick a)) = Some context
        /\ oscillator (state (handle PlayClick a)) = Some osc
        /\ gainNode (state (handle PlayClick a)) = Some gain
        /\ filterNode (state (handle PlayClick a)) = Some filter
        /\ error (state (handle PlayClick a)) = error (state a))
  /\ (forall message,
      unavailable (host a) = Some message ->
      callsBy PlayClick a = []
      /\ dispatchedBy PlayClick a
         = [SET_ERROR (Some ("Failed to setup audio: " ++ message)%string)]
      /\ audioContext (state (handle PlayClick a)) = None
      /\ gainNode (state (handle PlayClick a)) = gainNode (state a)).
Proof.
  intros Hr Hctx.
  destruct (reachable_Inv a Hr) as (_ & _ & Hstop & _).
  destruct (Hstop Hctx) as [Hpl Hcap].
  destruct (closure_current a Hr) as (Hw & Hf & Hff).
  split; [| split; [| split; [| split; [| split; [| split; [| split]]]]]].
  - unfold handler, handlePlayStop. rewrite Hctx. reflexivity.
  - clear Hr Hstop. destruct_app a. eval_eff_in Hctx. subst ctx.
    split_handler; reflexivity.
  - clear Hr Hstop. destruct_app a. eval_eff_in Hctx. eval_eff_in Hpl.
    subst ctx pl. split_handler; reflexivity.
  - clear Hr Hstop. destruct_app a. eval_eff_in Hctx. subst ctx.
    split_handler; all_actions.
  - clear Hr Hstop. destruct_app a. eval_eff_in Hctx. subst ctx.
    split_handler; all_actions.
  - intro Hun.
    destruct (first_setup_creates_graph a Hctx Hcap Hun) as (H1 & H2 & H3 & H4).
    eexists. eexists. repeat split; eassumption.
  - intro Hun. clear Hr Hstop.
    exists (frequency (setupAudio_state a)), (filterFrequency (setupAudio_state a)).
    split; [exact Hf | split; [exact Hff |]].
    rewrite <- Hw. clear Hw Hf Hff Hpl.
    destruct_app a. eval_eff_in Hctx. eval_eff_in Hcap. eval_eff_in Hun.
    subst ctx cctx un.
    eval_eff. cbv [nodesCreated flat_map app Nat.add].
    repeat split.
  - intros message Hun. clear Hr Hstop Hw Hf Hff Hpl.
    destruct_app a. eval_eff_in Hctx. eval_eff_in Hcap. eval_eff_in Hun.
    subst ctx cctx un.
    eval_eff. repeat split.
Qed.

Lemma C10_witness :
  let a := initialApp (freshHost None) in
  reachable a
  /\ audioContext (state a) = None
  /\ isPlaying (state (handle PlayClick a)) = false
  /\ Forall not_SET_PLAYING (dispatchedBy PlayClick a)
  /\ nodesCreated (callsBy PlayClick a)
     = [(OscillatorNode, 1%nat); (GainNode, 2%nat); (BiquadFilterNode, 3%nat)]
  /\ In (connect 1%nat 3%nat) (callsBy PlayClick a)
  /\ In (connect 3%nat 2%nat) (callsBy PlayClick a)
  /\ In (connect_destination 2%nat 0%nat) (callsBy PlayClick a)
  /\ In (start 1%nat) (callsBy PlayClick a)
  /\ oscillator (state (handle PlayClick a)) = Some 1%nat
  /\ filterNode (state (handle PlayClick a)) = Some 3%nat.
Proof.
  intro a.
  assert (Hr : reachable a) by apply reachable_initial.
  assert (Hctx : audioContext (state a) = None) by reflexivity.
  pose proof (C10_play_without_context_only_sets_up a Hr Hctx)
    as (_ & _ & H3 & H4 & _ & _ & H7 & _).
  destruct (H7 eq_refl) as (f & ff & _ & _ & Hc & _ & Hn & _ & Ho & _ & Hfl & _).
  split; [exact Hr | split; [exact Hctx | split; [exact H3 | split; [exact H4 |]]]].
  split; [exact Hn |].
  rewrite Hc.
  split; [do 9 right; left; reflexivity |].
  split; [do 10 right; left; reflexivity |].
  split; [do 11 right; left; reflexivity |].
  split; [do 12 right; left; reflexivity |].
  split; [exact Ho | exact Hfl].
Defined.

(** ** The global listeners of a knob (lines 97-113) *)

Section Listeners.

Import CustomKnob.

Variables min max : Q.

Lemma effectBody_fresh (n : nat) :
  effectBody n [] = [(mousemove, n); (mouseup, n)].
Proof. reflexivity. Qed.

Lemma effectCleanup_own (n : nat) :
  effectCleanup n [(mousemove, n); (mouseup, n)] = [].
Proof.
  unfold effectCleanup, removeEventListener, Listener_eqb.
  cbn. rewrite Nat.eqb_refl. cbn. rewrite Nat.eqb_refl. reflexivity.
Qed.

Lemma listeners_match_step (e : Step) (k : Knob) :
  listeners_match k -> listeners_match (step min max e k).
Proof.
  unfold listeners_match. destruct k as [r run next doc em].
  cbn [document effectRun]. intro Hdoc.
  destruct e as [| [|] | | v p | p |]; cbn [step effectRun nextRun document refs].
  - destruct run; cbn [document effectRun]; [exact Hdoc |].
    rewrite Hdoc. apply effectBody_fresh.
  - destruct run; cbn [document effectRun]; [| exact Hdoc].
    rewrite Hdoc, effectCleanup_own. apply effectBody_fresh.
  - destruct run; cbn [document effectRun]; exact Hdoc.
  - destruct run; cbn [document effectRun]; [| exact Hdoc].
    rewrite Hdoc. apply effectCleanup_own.
  - destruct run; cbn [document effectRun]; exact Hdoc.
  - match goal with |- context [existsb ?g ?l] => destruct (existsb g l) end;
      [| exact Hdoc].
    destruct (handleMouseMove min max p r) as [[? ?] |]; exact Hdoc.
  - match goal with |- context [existsb ?g ?l] => destruct (existsb g l) end;
      exact Hdoc.
Qed.

Lemma reachable_listeners_match (k : Knob) :
  reachable min max k -> listeners_match k.
Proof.
  induction 1 as [| e k _ IH].
  - reflexivity.
  - apply listeners_match_step; exact IH.
Qed.

End Listeners.




(* ================================================================== *)
(** * Further properties of the knob *)
(* ================================================================== *)

(** ** The angular delta *)

(** X4.  The normalisation undoes a full turn and is odd: a delta strictly
    between -180 and 180 is recovered after 360 has been added to it or
    subtracted from it (the case of a pointer that crosses the cut of
    [Math.atan2]), and the opposite delta normalises to the opposite
    result. *)
Theorem X4_normalizeAngleDiff_full_turn (d : Q) :
  -180 < d < 180 ->
  CustomKnob.normalizeAngleDiff (d + 360) == d
  /\ CustomKnob.normalizeAngleDiff (d - 360) == d
  /\ (forall x, CustomKnob.normalizeAngleDiff (- x)
                == - CustomKnob.normalizeAngleDiff x).
Proof.
  intros [Hlo Hhi]. unfold CustomKnob.normalizeAngleDiff.
  split; [| split; [| intro x]]; Qltb_cases; lra.
Qed.

Lemma X4_witness :
  (-180 < 10 < 180) /\ CustomKnob.normalizeAngleDiff (10 + 360) == 10.
Proof.
  assert (H : -180 < 10 < 180) by (split; reflexivity).
  split; [exact H |].
  exact (proj1 (X4_normalizeAngleDiff_full_turn 10 H)).
Defined.

(** X7.  A knob that is not mounted ignores everything but a mount: once
    the component has been torn down, no pointer event changes its refs or
    makes it emit, even if a drag was active at the time. *)
Theorem X7_unmounted_knob_is_inert (min max : Q) (k : CustomKnob.Knob) (e : CustomKnob.Step) :
  CustomKnob.reachable min max k ->
  CustomKnob.effectRun k = None ->
  e <> CustomKnob.Mount ->
  CustomKnob.step min max e k = k.
Proof.
  intros Hr Hrun He.
  pose proof (reachable_listeners_match min max k Hr) as Hdoc.
  unfold listeners_match in Hdoc. rewrite Hrun in Hdoc.
  destruct e as [| b | | v p | p |]; cbn [CustomKnob.step];
    rewrite ?Hrun, ?Hdoc; try reflexivity.
  exfalso. apply He. reflexivity.
Qed.

Lemma X7_witness :
  let k := CustomKnob.step 20 2000 CustomKnob.Unmount
             (CustomKnob.step 20 2000 (CustomKnob.SvgMouseDown 440 0)
                (CustomKnob.step 20 2000 CustomKnob.Mount CustomKnob.unmounted)) in
  CustomKnob.isDraggingRef (CustomKnob.refs k) = true
  /\ CustomKnob.step 20 2000 (CustomKnob.DocumentMouseMove 1) k = k.
Proof.
  intro k. split; [reflexivity |].
  apply X7_unmounted_knob_is_inert.
  - do 3 apply CustomKnob.reachable_step. apply CustomKnob.reachable_unmounted.
  - reflexivity.
  - discriminate.
Defined.

(* ================================================================== *)
(** * Further properties of the store and the handlers *)
(* ================================================================== *)

(** X8.  Writes to the store compose field by field: of two writes to the
    same field the second wins, and writes to different fields commute. *)
Theorem X8_reducer_writes_compose (s : State) (a b : Action) :
  (fieldOf a = fieldOf b -> reducer (reducer s a) b = reducer s b)
  /\ (fieldOf a <> fieldOf b ->
      reducer (reducer s a) b = reducer (reducer s b) a).
Proof.
  split; intro H; destruct a, b; try reflexivity;
    first [discriminate H | exfalso; apply H; reflexivity].
Qed.

Lemma handleMouseMove_Some_dragging (min max p : Q) (r : CustomKnob.Refs) (x : Q * Q) :
  CustomKnob.handleMouseMove min max p r = Some x ->
  CustomKnob.isDraggingRef r = true.
Proof.
  unfold CustomKnob.handleMouseMove.
  destruct (CustomKnob.isDraggingRef r); [reflexivity | discriminate].
Qed.

(** X9.  Every field of the store has its owners.  If an event changes the
    waveform it is a waveform selection; if it changes the filter cutoff it
    is a pointer move during a drag of the filter knob; if it changes the
    frequency it is a key press or a pointer move during a drag of the
    frequency knob; if it changes [isPlaying] it is a play click, a key
    press or a key release. *)
Theorem X9_fields_change_only_by_their_events (a : App) (e : Event) :
  (waveform (state (handle e a)) <> waveform (state a) ->
   exists w, e = WaveformSelect w)
  /\ (filterFrequency (state (handle e a)) <> filterFrequency (state a) ->
      (exists p q, e = MouseMove p q)
      /\ CustomKnob.isDraggingRef (filterKnob a) = true)
  /\ (frequency (state (handle e a)) <> frequency (state a) ->
      (exists k, e = KeyDown k)
      \/ ((exists p q, e = MouseMove p q)
          /\ CustomKnob.isDraggingRef (frequencyKnob a) = true))
  /\ (isPlaying (state (handle e a)) <> isPlaying (state a) ->
      e = PlayClick \/ (exists k, e = KeyDown k) \/ (exists k, e = KeyUp k)).
Proof.
  destruct_app a.
  destruct e as [| k | k | w | [|] p | p1 p2 | | u | dt | c | c'];
    split_handler;
    (split; [| split; [| split]]); intro H;
    try (exfalso; apply H; reflexivity);
    eauto 7;
    try (split; [eauto | eapply handleMouseMove_Some_dragging; eassumption]);
    try (right; split; [eauto | eapply handleMouseMove_Some_dragging; eassumption]).
Qed.

(** X10.  After a pointer release, pointer moves are without effect: they
    leave the store as it is and make no call into the host, until the next
    mouse-down on a knob. *)
Theorem X10_moves_after_release_do_nothing (a : App) (p q : Q) :
  state (handle (MouseMove p q) (handle MouseUp a)) = state a
  /\ callsBy (MouseMove p q) (handle MouseUp a) = []
  /\ dispatchedBy (MouseMove p q) (handle MouseUp a) = []
  /\ host (handle (MouseMove p q) (handle MouseUp a)) = host a.
Proof.
  unfold callsBy, dispatchedBy.
  cbn [handle commit run handler state host frequencyKnob filterKnob calls].
  rewrite (handleMouseMove_idle frequency_min frequency_max p
             (CustomKnob.handleMouseUp (frequencyKnob a)) eq_refl).
  rewrite (handleMouseMove_idle filter_min filter_max q
             (CustomKnob.handleMouseUp (filterKnob a)) eq_refl).
  repeat split.
Qed.

(** ** The graph in the store *)

Lemma coherent_initial (u : option string) : coherent (initialApp (freshHost u)).
Proof. cbv [coherent initialApp state initialState audioContext]. repeat split. Qed.

Lemma coherent_handle (e : Event) (a : App) :
  Inv a -> coherent a -> coherent (handle e a).
Proof.
  destruct_app a. unfold Inv, coherent.
  intros (_ & _ & Hstop & _) HC. eval_eff_in Hstop. eval_eff_in HC.
  destruct ctx as [n |].
  - destruct HC as (-> & -> & -> & Hlt).
    destruct e as [| k | k | w | [|] p | p1 p2 | | u | dt | c | c'];
      split_handler; repeat split; exact Hlt.
  - destruct HC as (-> & -> & ->). destruct (Hstop eq_refl) as [-> ->].
    destruct e as [| k | k | w | [|] p | p1 p2 | | u | dt | c | c'];
      split_handler; repeat split; lia.
Qed.

Lemma reachable_coherent (a : App) : reachable a -> coherent a.
Proof.
  induction 1 as [u | e a Hr IH].
  - apply coherent_initial.
  - apply coherent_handle; [apply reachable_Inv; exact Hr | exact IH].
Qed.

(** X11.  The store never mixes two graphs.  In every state the program
    reaches, either all four handles are null, or they are the context and
    the oscillator, gain and filter that one run of [setupAudio] created;
    the four are then pairwise distinct, and [isPlaying] is true only with
    a graph in the store. *)
Theorem X11_store_holds_one_whole_graph (a : App) :
  reachable a ->
  match audioContext (state a) with
  | None =>
      oscillator (state a) = None
      /\ gainNode (state a) = None
      /\ filterNode (state a) = None
      /\ isPlaying (state a) = false
  | Some n =>
      oscillator (state a) = Some (1 + n)%nat
      /\ gainNode (state a) = Some (2 + n)%nat
      /\ filterNode (state a) = Some (3 + n)%nat
      /\ (3 + n < nextHandle (host a))%nat
  end.
Proof.
  intro Hr. pose proof (reachable_coherent a Hr) as HC.
  destruct (reachable_Inv a Hr) as (_ & _ & Hstop & _).
  unfold coherent in HC.
  destruct (audioContext (state a)) as [n |]; [exact HC |].
  destruct HC as (H1 & H2 & H3).
  repeat split; try assumption. exact (proj1 (Hstop eq_refl)).
Qed.

Lemma X11_witness :
  let a := handle (KeyDown key_E) (initialApp (freshHost None)) in
  reachable a
  /\ match audioContext (state a) with
     | None => isPlaying (state a) = false
     | Some n => gainNode (state a) = Some (2 + n)%nat
     end.
Proof.
  intro a.
  assert (Hr : reachable a) by (apply reachable_handle, reachable_initial).
  split; [exact Hr |].
  pose proof (X11_store_holds_one_whole_graph a Hr) as H.
  destruct (audioContext (state a)).
  - exact (proj1 (proj2 H)).
  - exact (proj2 (proj2 (proj2 H))).
Defined.

Lemma graph_kept (a : App) (e : Event) (context : Handle) :
  audioContext (state a) = Some context ->
  audioContext (state (handle e a)) = Some context
  /\ oscillator (state (handle e a)) = oscillator (state a)
  /\ gainNode (state (handle e a)) = gainNode (state a)
  /\ filterNode (state (handle e a)) = filterNode (state a)
  /\ contextsCreated (callsBy e a) = []
  /\ nodesCreated (callsBy e a) = []
  /\ nextHandle (host (handle e a)) = nextHandle (host a).
Proof.
  intro Hctx. destruct_app a. eval_eff_in Hctx. subst ctx.
  destruct e as [| k | k | w | [|] p | p1 p2 | | u | dt | c | c'];
    split_handler; repeat split.
Qed.

(** X12.  Once the store holds a graph, no event replaces it and nothing
    more is created: the four handles stay as they are, no event constructs
    a context or a node, and no identity is taken from the host. *)
Theorem X12_graph_is_created_once (a : App) (e : Event) (context : Handle) :
  audioContext (state a) = Some context ->
  audioContext (state (handle e a)) = Some context
  /\ oscillator (state (handle e a)) = oscillator (state a)
  /\ gainNode (state (handle e a)) = gainNode (state a)
  /\ filterNode (state (handle e a)) = filterNode (state a)
  /\ contextsCreated (callsBy e a) = []
  /\ nodesCreated (callsBy e a) = []
  /\ nextHandle (host (handle e a)) = nextHandle (host a).
Proof. apply graph_kept. Qed.

Lemma X12_witness :
  let a := handle PlayClick (initialApp (freshHost None)) in
  audioContext (state a) = Some 0%nat
  /\ contextsCreated (callsBy (KeyDown key_C) a) = []
  /\ audioContext (state (handle (KeyDown key_C) a)) = Some 0%nat.
Proof.
  intro a.
  assert (H : audioContext (state a) = Some 0%nat) by reflexivity.
  pose proof (X12_graph_is_created_once a (KeyDown key_C) 0%nat H)
    as (H1 & _ & _ & _ & H5 & _).
  split; [exact H | split; [exact H5 | exact H1]].
Defined.

(** ** The history of host calls *)

Lemma calls_handle (e : Event) (a : App) :
  calls (handle e a) = calls a ++ callsBy e a.
Proof.
  destruct e as [| | | | [|] ? | | | | | |]; try reflexivity;
    cbn; symmetry; apply app_nil_r.
Qed.

Lemma setup_calls_wire (e : Event) (a : App) :
  Inv a -> coherent a ->
  audioContext (state a) = None ->
  match audioContext (state (handle e a)) with
  | None => True
  | Some n =>
      In (new_AudioContext n) (callsBy e a)
      /\ In (connect (1 + n)%nat (3 + n)%nat) (callsBy e a)
      /\ In (connect (3 + n)%nat (2 + n)%nat) (callsBy e a)
      /\ In (connect_destination (2 + n)%nat n) (callsBy e a)
      /\ In (start (1 + n)%nat) (callsBy e a)
  end.
Proof.
  destruct_app a. unfold Inv, coherent.
  intros (_ & _ & Hstop & _) HC Hctx.
  eval_eff_in Hstop. eval_eff_in HC. eval_eff_in Hctx. subst ctx.
  destruct HC as (-> & -> & ->). destruct (Hstop eq_refl) as [-> ->].
  destruct e as [| k | k | w | [|] p | p1 p2 | | u | dt | c | c'];
    split_handler; try exact I;
    cbv [In Nat.add]; repeat split; auto 40.
Qed.

Lemma wired_handle (e : Event) (a : App) :
  Inv a -> coherent a -> wired a -> wired (handle e a).
Proof.
  intros HI HC HW. unfold wired in *.
  destruct (audioContext (state a)) as [n |] eqn:Hctx.
  - rewrite (proj1 (graph_kept a e n Hctx)). rewrite calls_handle.
    destruct HW as (H1 & H2 & H3 & H4 & H5).
    repeat split; apply in_or_app; left; assumption.
  - pose proof (setup_calls_wire e a HI HC Hctx) as H.
    destruct (audioContext (state (handle e a))) as [n |]; [| exact I].
    rewrite calls_handle. destruct H as (H1 & H2 & H3 & H4 & H5).
    repeat split; apply in_or_app; right; assumption.
Qed.

(** X13.  Whenever the store holds a graph, the host has been told to
    build exactly that graph: its context was constructed, the oscillator
    was connected to the filter, the filter to the gain and the gain to the
    destination, and the oscillator was started. *)
Theorem X13_graph_in_store_is_wired_and_started (a : App) :
  reachable a -> wired a.
Proof.
  induction 1 as [u | e a Hr IH].
  - exact I.
  - apply wired_handle;
      [apply reachable_Inv | apply reachable_coherent | exact IH]; exact Hr.
Qed.

Lemma X13_witness :
  let a := handle PlayClick (initialApp (freshHost None)) in
  reachable a /\ wired a.
Proof.
  intro a.
  assert (Hr : reachable a) by (apply reachable_handle, reachable_initial).
  split; [exact Hr | exact (X13_graph_in_store_is_wired_and_started a Hr)].
Defined.

(** ** The gain and the playing flag *)

Lemma lastGainTarget_app (g : Handle) (cs cs' : list HostCall) :
  lastGainTarget g (cs ++ cs')
  = fold_left (gainWrite g) cs' (lastGainTarget g cs).
Proof. unfold lastGainTarget. apply fold_left_app. Qed.

Lemma gain_step_with_graph (e : Event) (a : App) (n : Handle) :
  coherent a ->
  audioContext (state a) = Some n ->
  fold_left (gainWrite (2 + n)%nat) (callsBy e a)
    (Some (if isPlaying (state a) then 0.5 else 0))
  = Some (if isPlaying (state (handle e a)) then 0.5 else 0).
Proof.
  destruct_app a. unfold coherent. intros HC Hctx.
  eval_eff_in HC. eval_eff_in Hctx. subst ctx.
  destruct HC as (-> & -> & -> & _).
  destruct e as [| k | k | w | [|] p | p1 p2 | | u | dt | c | c'];
    split_handler; cbv [gainWrite]; rewrite ?Nat.eqb_refl; reflexivity.
Qed.

Lemma gain_step_created (e : Event) (a : App) (T : option Q) :
  Inv a -> coherent a ->
  audioContext (state a) = None ->
  match gainNode (state (handle e a)) with
  | None => True
  | Some g =>
      fold_left (gainWrite g) (callsBy e a) T
      = Some (if isPlaying (state (handle e a)) then 0.5 else 0)
  end.
Proof.
  destruct_app a. unfold Inv, coherent.
  intros (_ & _ & Hstop & _) HC Hctx.
  eval_eff_in Hstop. eval_eff_in HC. eval_eff_in Hctx. subst ctx.
  destruct HC as (-> & -> & ->). destruct (Hstop eq_refl) as [-> ->].
  destruct e as [| k | k | w | [|] p | p1 p2 | | u | dt | c | c'];
    split_handler; try exact I;
    cbv [gainWrite]; rewrite ?Nat.eqb_refl; reflexivity.
Qed.

Lemma gain_target_handle (e : Event) (a : App) :
  Inv a -> coherent a ->
  (forall g, gainNode (state a) = Some g ->
             lastGainTarget g (calls a)
             = Some (if isPlaying (state a) then 0.5 else 0)) ->
  forall g, gainNode (state (handle e a)) = Some g ->
            lastGainTarget g (calls (handle e a))
            = Some (if isPlaying (state (handle e a)) then 0.5 else 0).
Proof.
  intros HI HC IH g Hg.
  rewrite calls_handle, lastGainTarget_app.
  destruct (audioContext (state a)) as [n |] eqn:Hctx.
  - pose proof HC as HC'. unfold coherent in HC'. rewrite Hctx in HC'.
    destruct HC' as (_ & Hgn & _).
    destruct (graph_kept a e n Hctx) as (_ & _ & Hkept & _).
    rewrite Hkept, Hgn in Hg.
    assert (Eg : g = (2 + n)%nat) by congruence. subst g.
    rewrite (IH _ Hgn). apply gain_step_with_graph; assumption.
  - pose proof (gain_step_created e a (lastGainTarget g (calls a)) HI HC Hctx) as H.
    rewrite Hg in H. exact H.
Qed.

(** X14.  The gain of the graph in the store and the playing flag agree in
    every state the program reaches: the last value the gain node was sent
    towards, by the initial [setValueAtTime] or by a later
    [setTargetAtTime], is 0.5 when [isPlaying] is true and 0 when it is
    false. *)
Theorem X14_gain_target_follows_isPlaying (a : App) (g : Handle) :
  reachable a ->
  gainNode (state a) = Some g ->
  lastGainTarget g (calls a) = Some (if isPlaying (state a) then 0.5 else 0).
Proof.
  intro Hr. revert g. induction Hr as [u | e a Hr IH].
  - intros g Hg. discriminate Hg.
  - apply gain_target_handle;
      [apply reachable_Inv | apply reachable_coherent | exact IH]; exact Hr.
Qed.

Lemma X14_witness :
  let a := handleAll [PlayClick; KeyDown key_D; KeyUp key_D; PlayClick]
             (initialApp (freshHost None)) in
  reachable a
  /\ gainNode (state a) = Some 2%nat
  /\ lastGainTarget 2%nat (calls a)
     = Some (if isPlaying (state a) then 0.5 else 0).
Proof.
  intro a.
  assert (Hr : reachable a).
  { unfold a, handleAll. cbn [fold_left].
    do 4 apply reachable_handle. apply reachable_initial. }
  assert (Hg : gainNode (state a) = Some 2%nat) by (vm_compute; reflexivity).
  split; [exact Hr | split; [exact Hg |]].
  exact (X14_gain_target_follows_isPlaying a 2%nat Hr Hg).
Defined.

(** ** The memoised [setupAudio] closure *)

(** X15.  A value set before the graph exists is not lost.  Although the
    [setupAudio] closure is only renewed when the waveform, the frequency or
    the filter cutoff changes, in every state the program reaches it holds
    the current three; so a play click that creates the graph gives the new
    oscillator the waveform and frequency of the store and the new filter
    the cutoff of the store. *)
Theorem X15_graph_is_created_with_current_values (a : App) :
  reachable a ->
  audioContext (state a) = None ->
  unavailable (host a) = None ->
  let n := nextHandle (host a) in
  let t := currentTime (host a) in
  In (set_oscillator_type (1 + n)%nat (waveform (state a))) (callsBy PlayClick a)
  /\ exists f ff,
       In (setValueAtTime (oscillator_frequency (1 + n)%nat) f t) (callsBy PlayClick a)
       /\ f == frequency (state a)
       /\ In (setValueAtTime (filter_frequency (3 + n)%nat) ff t) (callsBy PlayClick a)
       /\ ff == filterFrequency (state a).
Proof.
  intros Hr Hctx Hun.
  destruct (closure_current a Hr) as (Hw & Hf & Hff).
  destruct (reachable_Inv a Hr) as (_ & _ & Hstop & _).
  destruct (Hstop Hctx) as [_ Hcap]. clear Hr Hstop.
  destruct_app a.
  eval_eff_in Hctx. eval_eff_in Hun. eval_eff_in Hw. eval_eff_in Hf.
  eval_eff_in Hff. eval_eff_in Hcap. subst ctx un cctx cwf.
  eval_eff. cbv [In Nat.add]. split; [auto 10 |].
  exists cf, cff. repeat split; auto 20.
Qed.

Lemma X15_witness :
  let a := handleAll [KnobMouseDown FILTER 0; MouseMove 0 1; MouseUp;
                      WaveformSelect square]
             (initialApp (freshHost None)) in
  reachable a
  /\ In (set_oscillator_type 1%nat square) (callsBy PlayClick a).
Proof.
  intro a.
  assert (Hr : reachable a).
  { unfold a, handleAll. cbn [fold_left].
    do 4 apply reachable_handle. apply reachable_initial. }
  split; [exact Hr |].
  exact (proj1 (X15_graph_is_created_with_current_values a Hr eq_refl eq_refl)).
Defined.

(** X16.  A key pressed while the store has no graph does not reach the
    oscillator with its pitch.  The store takes the pitch of the key, but
    the oscillators created during the event are given the frequency the
    store had before the press, and the event makes no other write to an
    oscillator frequency. *)
Theorem X16_first_key_press_keeps_old_pitch_in_host (a : App) (k : Key) :
  reachable a ->
  audioContext (state a) = None ->
  unavailable (host a) = None ->
  frequency (state (handle (KeyDown k) a)) = keyFrequency k
  /\ Forall (oscillator_written_with (frequency (state a)))
       (callsBy (KeyDown k) a)
  /\ exists osc f,
       oscillator (state (handle (KeyDown k) a)) = Some osc
       /\ In (setValueAtTime (oscillator_frequency osc) f (currentTime (host a)))
            (callsBy (KeyDown k) a).
Proof.
  intros Hr Hctx Hun.
  destruct (closure_current a Hr) as (_ & Hf & _).
  pose proof (reachable_coherent a Hr) as HC.
  destruct (reachable_Inv a Hr) as (_ & _ & Hstop & _).
  destruct (Hstop Hctx) as [Hpl Hcap]. clear Hr Hstop.
  destruct_app a. unfold coherent in HC.
  eval_eff_in Hctx. eval_eff_in Hun. eval_eff_in Hf. eval_eff_in HC.
  eval_eff_in Hcap. eval_eff_in Hpl. subst ctx un cctx pl.
  destruct HC as (-> & -> & ->).
  eval_eff. split; [reflexivity | split].
  - all_actions; cbv [oscillator_written_with]; exact Hf.
  - eexists. eexists. split; [reflexivity |]. cbv [In]. auto 40.
Qed.

Lemma X16_witness :
  let a := initialApp (freshHost None) in
  reachable a
  /\ frequency (state (handle (KeyDown key_C) a)) = keyFrequency key_C
  /\ Forall (oscillator_written_with 440) (callsBy (KeyDown key_C) a).
Proof.
  intro a.
  assert (Hr : reachable a) by apply reachable_initial.
  pose proof (X16_first_key_press_keeps_old_pitch_in_host a key_C Hr eq_refl eq_refl)
    as (H1 & H2 & _).
  split; [exact Hr | split; [exact H1 | exact H2]].
Defined.

(** X17.  With a graph in the store, every write of the frequency or of the
    filter cutoff to the store is accompanied, in the same event, by a
    write of the same value to the oscillator or the filter of that graph
    at the current time. *)
Theorem X17_writes_reach_the_graph (a : App) (e : Event) (context : Handle) (p : Q) :
  reachable a ->
  audioContext (state a) = Some context ->
  (In (SET_FREQUENCY p) (dispatchedBy e a) ->
   exists osc,
     oscillator (state a) = Some osc
     /\ In (setValueAtTime (oscillator_frequency osc) p (currentTime (host a)))
          (callsBy e a))
  /\ (In (SET_FILTER_FREQUENCY p) (dispatchedBy e a) ->
      exists filter,
        filterNode (state a) = Some filter
        /\ In (setValueAtTime (filter_frequency filter) p (currentTime (host a)))
             (callsBy e a)).
Proof.
  intros Hr Hctx. pose proof (reachable_coherent a Hr) as HC. clear Hr.
  destruct_app a. unfold coherent in HC.
  eval_eff_in Hctx. eval_eff_in HC. subst ctx.
  destruct HC as (-> & -> & -> & _).
  destruct e as [| k | k | w | [|] ang | p1 p2 | | u | dt | c | c'];
    split_handler; (split; intro H; cbv [In] in H;
    repeat match goal with
      | H : _ \/ _ |- _ => destruct H as [H | H]
      | H : False |- _ => destruct H
      end;
    try discriminate H;
    injection H as <-;
    eexists; (split; [reflexivity |]); cbv [In]; auto 10).
Qed.

Lemma X17_witness :
  let a := handle PlayClick (initialApp (freshHost None)) in
  reachable a
  /\ exists osc,
       oscillator (state a) = Some osc
       /\ In (setValueAtTime (oscillator_frequency osc) (keyFrequency key_B)
                (currentTime (host a)))
            (callsBy (KeyDown key_B) a).
Proof.
  intro a.
  assert (Hr : reachable a) by (apply reachable_handle, reachable_initial).
  split; [exact Hr |].
  apply (proj1 (X17_writes_reach_the_graph a (KeyDown key_B) 0%nat
                  (keyFrequency key_B) Hr eq_refl)).
  vm_compute. left. reflexivity.
Defined.

(** X18.  While the host refuses an audio context and the store has no
    graph, no event makes a call into the host or takes an identity from
    it, and the store stays without a graph and stopped. *)
Theorem X18_nothing_reaches_a_refusing_host (a : App) (e : Event) (message : string) :
  reachable a ->
  audioContext (state a) = None ->
  unavailable (host a) = Some message ->
  callsBy e a = []
  /\ nextHandle (host (handle e a)) = nextHandle (host a)
  /\ audioContext (state (handle e a)) = None
  /\ isPlaying (state (handle e a)) = false.
Proof.
  intros Hr Hctx Hun.
  pose proof (reachable_coherent a Hr) as HC.
  destruct (reachable_Inv a Hr) as (_ & _ & Hstop & _).
  destruct (Hstop Hctx) as [Hpl Hcap]. clear Hr Hstop.
  destruct_app a. unfold coherent in HC.
  eval_eff_in Hctx. eval_eff_in Hun. eval_eff_in HC.
  eval_eff_in Hcap. eval_eff_in Hpl. subst ctx un cctx pl.
  destruct HC as (-> & -> & ->).
  destruct e as [| k | k | w | [|] ang | p1 p2 | | u | dt | c | c'];
    split_handler; repeat split.
Qed.

Lemma X18_witness :
  let a := initialApp (freshHost (Some "NotAllowedError"%string)) in
  reachable a
  /\ callsBy (KeyDown key_F) a = []
  /\ nextHandle (host (handle (KeyDown key_F) a)) = 0%nat.
Proof.
  intro a.
  assert (Hr : reachable a) by apply reachable_initial.
  pose proof (X18_nothing_reaches_a_refusing_host a (KeyDown key_F)
                "NotAllowedError"%string Hr eq_refl eq_refl) as (H1 & H2 & _).
  split; [exact Hr | split; [exact H1 | exact H2]].
Defined.

(** ** The play button with a graph *)

(** X19.  With a graph in the store the play button is a toggle: one click
    negates [isPlaying]; a second click brings the store back to what it
    was.  A click asks the host to resume the context exactly when the
    context is suspended at the time of the click. *)
Theorem X19_play_click_toggles (a : App) (context : Handle) :
  reachable a ->
  audioContext (state a) = Some context ->
  isPlaying (state (handle PlayClick a)) = negb (isPlaying (state a))
  /\ state (handle PlayClick (handle PlayClick a)) = state a
  /\ (In (resume context) (callsBy PlayClick a)
      <-> existsb (Nat.eqb context) (suspended (host a)) = true).
Proof.
  intros Hr Hctx. pose proof (reachable_coherent a Hr) as HC. clear Hr.
  destruct_app a. unfold coherent in HC.
  eval_eff_in Hctx. eval_eff_in HC. subst ctx.
  destruct HC as (-> & -> & -> & _).
  eval_eff.
  destruct (existsb (Nat.eqb context) su) eqn:E; eval_eff;
    rewrite ?E; destruct pl; eval_eff;
    rewrite ?E; eval_eff;
    (split; [reflexivity | split; [reflexivity |]]);
    cbv [In]; split; intro H; try reflexivity; try discriminate H; auto;
    repeat match goal with
      | H : _ \/ _ |- _ => destruct H as [H | H]
      | H : False |- _ => destruct H
      end; discriminate H.
Qed.

Lemma X19_witness :
  let a := handleAll [PlayClick; HostSuspend 0%nat] (initialApp (freshHost None)) in
  reachable a
  /\ isPlaying (state (handle PlayClick a)) = true
  /\ In (resume 0%nat) (callsBy PlayClick a).
Proof.
  intro a.
  assert (Hr : reachable a).
  { unfold a, handleAll. cbn [fold_left].
    do 2 apply reachable_handle. apply reachable_initial. }
  pose proof (X19_play_click_toggles a 0%nat Hr eq_refl) as (H1 & _ & H4).
  split; [exact Hr | split; [exact H1 |]].
  apply (proj2 H4). reflexivity.
Defined.

(** ** Errors *)

(** X20.  The only error the program ever records is a failed graph
    creation.  An event either leaves [error] as it was or, in a state
    without a graph and on a host that refuses an audio context, sets it to
    the message of that failure; the playback branch of [handlePlayStop]
    never meets a null gain node. *)
Theorem X20_only_setup_failures_are_recorded (a : App) (e : Event) :
  reachable a ->
  error (state (handle e a)) = error (state a)
  \/ (audioContext (state a) = None
      /\ exists message,
           unavailable (host a) = Some message
           /\ error (state (handle e a))
              = Some ("Failed to setup audio: " ++ message)%string).
Proof.
  intros Hr. pose proof (reachable_coherent a Hr) as HC. clear Hr.
  destruct_app a. unfold coherent in HC. eval_eff_in HC.
  destruct ctx as [n |].
  - destruct HC as (-> & -> & -> & _).
    destruct e as [| k | k | w | [|] ang | p1 p2 | | u | dt | c | c'];
      split_handler; left; reflexivity.
  - destruct HC as (-> & -> & ->).
    destruct e as [| k | k | w | [|] ang | p1 p2 | | u | dt | c | c'];
      split_handler;
      first [ left; reflexivity
            | right; split; [reflexivity | eexists; split; reflexivity] ].
Qed.

Lemma X20_witness :
  let a := handle PlayClick (initialApp (freshHost None)) in
  reachable a
  /\ (error (state (handle PlayClick a)) = error (state a)
      \/ (audioContext (state a) = None
          /\ exists message,
               unavailable (host a) = Some message
               /\ error (state (handle PlayClick a))
                  = Some ("Failed to setup audio: " ++ message)%string)).
Proof.
  intro a.
  assert (Hr : reachable a) by (apply reachable_handle, reachable_initial).
  split; [exact Hr | exact (X20_only_setup_failures_are_recorded a PlayClick Hr)].
Defined.

(** ** Teardown *)

Lemma Handle_option_eqb_eq (x y : option Handle) :
  Handle_option_eqb x y = true -> x = y.
Proof.
  destruct x as [x |], y as [y |]; cbn; try discriminate; try reflexivity.
  intro H. apply Nat.eqb_eq in H. congruence.
Qed.

Lemma Handle_option_eqb_refl (x : option Handle) : Handle_option_eqb x x = true.
Proof. destruct x; cbn; [apply Nat.eqb_refl | reflexivity]. Qed.

Lemma teardown_deps_eq (s1 s2 : State) :
  teardown_deps_unchanged s1 s2 = true ->
  oscillator s1 = oscillator s2 /\ gainNode s1 = gainNode s2
  /\ filterNode s1 = filterNode s2 /\ audioContext s1 = audioContext s2.
Proof.
  unfold teardown_deps_unchanged. intro H.
  apply andb_true_iff in H. destruct H as [H H4].
  apply andb_true_iff in H. destruct H as [H H3].
  apply andb_true_iff in H. destruct H as [H1 H2].
  repeat split; apply Handle_option_eqb_eq; assumption.
Qed.

Lemma teardown_deps_of_eq (s1 s2 : State) :
  oscillator s1 = oscillator s2 -> gainNode s1 = gainNode s2 ->
  filterNode s1 = filterNode s2 -> audioContext s1 = audioContext s2 ->
  teardown_deps_unchanged s1 s2 = true.
Proof.
  intros H1 H2 H3 H4. unfold teardown_deps_unchanged.
  rewrite H1, H2, H3, H4, !Handle_option_eqb_refl. reflexivity.
Qed.

Lemma teardown_by_handles (s1 s2 : State) :
  teardown_deps_unchanged s1 s2 = true -> teardown s1 = teardown s2.
Proof.
  intro H. destruct (teardown_deps_eq s1 s2 H) as (H1 & H2 & H3 & H4).
  unfold teardown. rewrite H1, H2, H3, H4. reflexivity.
Qed.

Lemma mounted_invariant (m : Mounted) :
  reachableMounted m ->
  reachable (mounted_app m)
  /\ torn_down m = []
  /\ teardown_deps_unchanged (teardown_state m) (state (mounted_app m)) = true.
Proof.
  induction 1 as [u | e m _ (Hr & Ht & Hd)].
  - split; [apply reachable_initial | split; reflexivity].
  - unfold handleMounted. cbv zeta.
    destruct (teardown_deps_unchanged (teardown_state m)
                (state (handle e (mounted_app m)))) eqn:E;
      cbn [mounted_app torn_down teardown_state].
    + split; [apply reachable_handle; exact Hr | split; [exact Ht | exact E]].
    + split; [apply reachable_handle; exact Hr | split].
      * rewrite Ht. cbn [app].
        destruct (teardown_deps_eq _ _ Hd) as (H1 & H2 & H3 & H4).
        pose proof (reachable_coherent _ Hr) as HC. unfold coherent in HC.
        destruct (audioContext (state (mounted_app m))) as [n |] eqn:Hctx.
        -- exfalso.
           destruct (graph_kept (mounted_app m) e n Hctx)
             as (K1 & K2 & K3 & K4 & _).
           rewrite teardown_deps_of_eq in E; [discriminate E | | | |];
             congruence.
        -- destruct HC as (C1 & C2 & C3).
           unfold teardown. rewrite H1, H2, H3, H4, C1, C2, C3. reflexivity.
      * apply teardown_deps_of_eq; reflexivity.
Qed.

(** X21.  The teardown effect acts once and on the graph of the store.
    While the component is mounted its cleanups make no call; unmounting
    stops the oscillator of the store, disconnects its three nodes and
    closes its context, and does nothing when the store has no graph.  A
    context that was created but is not the one in the store is never
    closed. *)
Theorem X21_teardown_closes_the_graph_of_the_store (m : Mounted) :
  reachableMounted m ->
  torn_down m = []
  /\ unmount m =
       match audioContext (state (mounted_app m)) with
       | None => []
       | Some n =>
           [oscillator_stop (1 + n)%nat; node_disconnect (1 + n)%nat;
            node_disconnect (2 + n)%nat; node_disconnect (3 + n)%nat;
            context_close n]
       end
  /\ (forall c, In (context_close c) (unmount m) ->
                audioContext (state (mounted_app m)) = Some c).
Proof.
  intro Hm. destruct (mounted_invariant m Hm) as (Hr & Ht & Hd).
  pose proof (reachable_coherent _ Hr) as HC. unfold coherent in HC.
  assert (Hu : unmount m =
               match audioContext (state (mounted_app m)) with
               | None => []
               | Some n =>
                   [oscillator_stop (1 + n)%nat; node_disconnect (1 + n)%nat;
                    node_disconnect (2 + n)%nat; node_disconnect (3 + n)%nat;
                    context_close n]
               end).
  { unfold unmount. rewrite Ht, (teardown_by_handles _ _ Hd). cbn [app].
    unfold teardown.
    destruct (audioContext (state (mounted_app m))) as [n |].
    - destruct HC as (-> & -> & -> & _). reflexivity.
    - destruct HC as (-> & -> & ->). reflexivity. }
  split; [exact Ht | split; [exact Hu |]].
  intros c Hc. rewrite Hu in Hc.
  destruct (audioContext (state (mounted_app m))) as [n |].
  - cbv [In] in Hc.
    repeat match goal with
      | H : _ \/ _ |- _ => destruct H as [H | H]
      | H : False |- _ => destruct H
      end; try discriminate Hc.
    congruence.
  - destruct Hc.
Qed.

Lemma X21_witness :
  let m := handleMounted (KeyDown key_A) (mount (freshHost None)) in
  reachableMounted m
  /\ contextsCreated (calls (mounted_app m)) = [0%nat; 4%nat]
  /\ unmount m =
       [oscillator_stop 5%nat; node_disconnect 5%nat; node_disconnect 6%nat;
        node_disconnect 7%nat; context_close 4%nat].
Proof.
  intro m.
  assert (Hm : reachableMounted m)
    by (apply reachableMounted_handle, reachableMounted_mount).
  split; [exact Hm | split; [reflexivity |]].
  rewrite (proj1 (proj2 (X21_teardown_closes_the_graph_of_the_store m Hm))).
  reflexivity.
Defined.

(** ** The display *)

(** X22.  The number on the display is the frequency of the store rounded
    to the nearest integer: it differs from the frequency by at most one
    half, and in every state the program reaches it lies between 20 and
    2000. *)
Theorem X22_displayed_frequency (a : App) :
  reachable a ->
  (20 <= displayedFrequency (state a) <= 2000)%Z
  /\ inject_Z (displayedFrequency (state a)) - (1 # 2) <= frequency (state a)
  /\ frequency (state a) < inject_Z (displayedFrequency (state a)) + (1 # 2).
Proof.
  intro Hr. destruct (reachable_Inv a Hr) as ((Hlo & Hhi) & _).
  unfold displayedFrequency, Math_round.
  set (f := frequency (state a)) in *.
  unfold frequency_min in Hlo. unfold frequency_max in Hhi.
  split; [split |].
  - change 20%Z with (Qfloor (20 + (1 # 2))).
    apply Qfloor_resp_le. lra.
  - change 2000%Z with (Qfloor (2000 + (1 # 2))).
    apply Qfloor_resp_le. lra.
  - pose proof (Qfloor_le (f + (1 # 2))) as H1.
    pose proof (Qlt_floor (f + (1 # 2))) as H2.
    rewrite inject_Z_plus in H2.
    change (inject_Z 1) with 1 in H2.
    split; lra.
Qed.

Lemma X22_witness :
  let a := handle (KeyDown key_C) (initialApp (freshHost None)) in
  reachable a
  /\ displayedFrequency (state a) = 262%Z
  /\ (20 <= displayedFrequency (state a) <= 2000)%Z.
Proof.
  intro a.
  assert (Hr : reachable a) by (apply reachable_handle, reachable_initial).
  split; [exact Hr | split; [reflexivity |]].
  exact (proj1 (X22_displayed_frequency a Hr)).
Defined.

(** ** A drag and the renders it causes *)

(** X24.  A render never interrupts a drag.  Whether or not the render
    replaces the listeners, the refs of the knob are kept, and the next
    pointer move emits what it would have emitted without the render. *)
Theorem X24_drag_survives_render (min max : Q) (k : CustomKnob.Knob) (b : bool) (p : Q) :
  CustomKnob.reachable min max k ->
  CustomKnob.refs (CustomKnob.step min max (CustomKnob.Render b) k)
  = CustomKnob.refs k
  /\ CustomKnob.emitted
       (CustomKnob.step min max (CustomKnob.DocumentMouseMove p)
          (CustomKnob.step min max (CustomKnob.Render b) k))
     = CustomKnob.emitted
         (CustomKnob.step min max (CustomKnob.DocumentMouseMove p) k).
Proof.
  intro Hr. pose proof (reachable_listeners_match min max k Hr) as Hdoc.
  pose proof (listeners_match_step min max (CustomKnob.Render b) k Hdoc) as Hdoc'.
  unfold listeners_match in *.
  destruct k as [r run next doc em].
  cbn [CustomKnob.document CustomKnob.effectRun] in Hdoc.
  destruct run as [n |], b;
    cbn [CustomKnob.step CustomKnob.effectRun CustomKnob.refs] in *;
    try (split; reflexivity).
  cbn [CustomKnob.document CustomKnob.effectRun] in Hdoc'.
  split; [reflexivity |].
  cbn [CustomKnob.step CustomKnob.document CustomKnob.refs].
  rewrite Hdoc', Hdoc. cbn [existsb CustomKnob.DomEvent_eqb fst orb].
  destruct (CustomKnob.handleMouseMove min max p r) as [[? ?] |]; reflexivity.
Qed.

Lemma X24_witness :
  let k := CustomKnob.step 20 2000 (CustomKnob.SvgMouseDown 440 0)
             (CustomKnob.step 20 2000 CustomKnob.Mount CustomKnob.unmounted) in
  CustomKnob.reachable 20 2000 k
  /\ CustomKnob.refs (CustomKnob.step 20 2000 (CustomKnob.Render true) k)
     = CustomKnob.refs k.
Proof.
  intro k.
  assert (Hr : CustomKnob.reachable 20 2000 k).
  { do 2 apply CustomKnob.reachable_step. apply CustomKnob.reachable_unmounted. }
  split; [exact Hr |].
  exact (proj1 (X24_drag_survives_render 20 2000 k true 1 Hr)).
Defined.

(** ** Saturation under binary64 rounding *)

(** X25.  With the props of the two knobs of the program and binary64
    arithmetic, every angle below -135 gives exactly 20 and every angle
    above 135 gives exactly 2000 on the frequency knob and exactly 20000 on
    the filter knob. *)
Theorem X25_IEEE_knobs_saturate (angle : float) :
  PrimFloat.ltb angle (-135)%float = true
  \/ PrimFloat.ltb 135%float angle = true ->
  IEEE.angleToValue 20%float 2000%float angle
  = (if PrimFloat.ltb angle (-135)%float then 20 else 2000)%float
  /\ IEEE.angleToValue 20%float 20000%float angle
     = (if PrimFloat.ltb angle (-135)%float then 20 else 20000)%float.
Proof.
  intros [H | H].
  - rewrite H. unfold IEEE.angleToValue. cbv zeta.
    rewrite (IEEE_clamp_below angle H). split; vm_compute; reflexivity.
  - assert (Hn : PrimFloat.ltb angle (-135)%float = false).
    { destruct (PrimFloat.ltb angle (-135)%float) eqn:E; [| reflexivity].
      pose proof (ltb_asym _ _ (ltb_minus_135_135 _ E)) as E'.
      congruence. }
    rewrite Hn. unfold IEEE.angleToValue. cbv zeta.
    rewrite (IEEE_clamp_above angle H). split; vm_compute; reflexivity.
Qed.

Lemma X25_witness :
  (PrimFloat.ltb 1000%float (-135)%float = true
   \/ PrimFloat.ltb 135%float 1000%float = true)
  /\ IEEE.angleToValue 20%float 20000%float 1000%float = 20000%float.
Proof.
  assert (H : PrimFloat.ltb 1000%float (-135)%float = true
              \/ PrimFloat.ltb 135%float 1000%float = true)
    by (right; vm_compute; reflexivity).
  split; [exact H |].
  exact (proj2 (X25_IEEE_knobs_saturate 1000%float H)).
Defined.

(** ** A drag without movement under binary64 rounding *)

Section StillDrag.

Local Open Scope float_scope.

Lemma IEEE_drag_without_movement (min max pointerAngle : float) (r : IEEE.Refs) :
  IEEE.isDraggingRef r = true ->
  IEEE.knobRef r = true ->
  pointerAngle - IEEE.startAngleRef r = 0 ->
  IEEE.handleMouseMove min max pointerAngle r
  = Some (IEEE.valueToAngle min max (IEEE.startValueRef r) + 0,
          IEEE.angleToValue min max
            (IEEE.valueToAngle min max (IEEE.startValueRef r) + 0)).
Proof.
  intros Hd Hk H0. unfold IEEE.handleMouseMove. rewrite Hd, Hk, H0. cbn [negb orb].
  replace (IEEE.normalizeAngleDiff (0 * (180 / IEEE.Math_PI))) with 0
    by (vm_compute; reflexivity).
  reflexivity.
Qed.

Lemma IEEE_still_drag_close_on_whole_frequencies :
  forallb (fun n => IEEE.withinEpsilonOf 2000
                      (IEEE.angleToValue 20 2000
                         (IEEE.valueToAngle 20 2000 (IEEE.ofNat n) + 0))
                      (IEEE.ofNat n))
    (seq 20 1981) = true.
Proof. vm_compute. reflexivity. Qed.

(** X5.  Pressing the frequency knob and moving the pointer by a zero
    angle emits a value, and the emitted value is the captured one up to
    rounding: for every whole frequency from 20 to 2000 it is within
    [2^-52 * max] of it, and it is exactly the captured value at both ends
    of the range.  It is not always the captured value: from 392 the drag
    emits 391.99999999999994. *)
Theorem X5_still_drag_emits_value_up_to_rounding
  (n : nat) (pointerAngle : float) (r : IEEE.Refs) :
  (20 <= n <= 2000)%nat ->
  IEEE.isDraggingRef r = true ->
  IEEE.knobRef r = true ->
  pointerAngle - IEEE.startAngleRef r = 0 ->
  IEEE.startValueRef r = IEEE.ofNat n ->
  exists newAngle newValue,
    IEEE.handleMouseMove 20 2000 pointerAngle r = Some (newAngle, newValue)
    /\ IEEE.withinEpsilonOf 2000 newValue (IEEE.ofNat n) = true
    /\ (n = 20%nat -> newValue = 20)
    /\ (n = 2000%nat -> newValue = 2000)
    /\ (n = 392%nat -> newValue = 0x1.87fffffffffffp+8).
Proof.
  intros [Hlo Hhi] Hd Hk H0 Hv.
  rewrite (IEEE_drag_without_movement 20 2000 pointerAngle r Hd Hk H0), Hv.
  eexists. eexists. split; [reflexivity |].
  split; [| split; [| split]].
  - assert (Hin : In n (seq 20 1981)) by (apply in_seq; lia).
    exact (proj1 (forallb_forall _ _)
             IEEE_still_drag_close_on_whole_frequencies n Hin).
  - intros ->. vm_compute. reflexivity.
  - intros ->. vm_compute. reflexivity.
  - intros ->. vm_compute. reflexivity.
Qed.

Lemma X5_witness :
  let r := IEEE.mkRefs true true 0x1.8p-1 (IEEE.ofNat 392) in
  (20 <= 392 <= 2000)%nat
  /\ 0x1.8p-1 - IEEE.startAngleRef r = 0
  /\ IEEE.handleMouseMove 20 2000 0x1.8p-1 r
     = Some (IEEE.valueToAngle 20 2000 392 + 0, 0x1.87fffffffffffp+8).
Proof.
  intro r.
  assert (Hn : (20 <= 392 <= 2000)%nat) by lia.
  assert (H0 : 0x1.8p-1 - IEEE.startAngleRef r = 0) by (vm_compute; reflexivity).
  destruct (X5_still_drag_emits_value_up_to_rounding 392 0x1.8p-1 r
              Hn eq_refl eq_refl H0 eq_refl)
    as (newAngle & newValue & He & _ & _ & _ & H392).
  split; [exact Hn | split; [exact H0 |]].
  rewrite He. rewrite (H392 eq_refl).
  f_equal. f_equal.
  assert (E : IEEE.handleMouseMove 20 2000 0x1.8p-1 r
              = Some (IEEE.valueToAngle 20 2000 392 + 0, 0x1.87fffffffffffp+8))
    by (vm_compute; reflexivity).
  rewrite He in E. congruence.
Defined.

End StillDrag.
